(** * AWS push notification tools: batch sender and token validators

    A shallow embedding of

    - [tools/batch-sender.js]: class [BatchNotificationSender]
      (constructor, [validateNotification], [sendSingleNotification],
      [sendBatch], [generateSummary]);
    - the notification test tool: [validateFCMToken];
    - the token validator tool: [FCMTokenValidator.validateTokenFormat];

    together with the properties of the delivery engine that hold of that
    code, and concrete runs where a stated property does not.

    The second half of the definitions adds the functions around these:
    the file loader and the command line driver of the batch sender, the
    request handler with its [validateInput], and the other methods of
    the token validator; the second half of the properties is about
    them.

    Conventions of the embedding.

    - JavaScript numbers are modelled by [Z]: the integers that
      JavaScript represents exactly (the command line parses them with
      [parseInt]).  [undefined] and [NaN], which [x || d] treats alike,
      are [None] in the constructor options; where [NaN] matters it is a
      [JsNumber].
    - A JavaScript string is a [string]; one [ascii] stands for one code
      unit.
    - A value that the code only inspects is a [JsValue]: a primitive
      value, an array, or another object.  An object with fixed
      properties is a record of the properties the code reads, a missing
      property being [JUndefined]; an object used as a map is a
      [JsObject], the list of its own properties, and what it inherits
      from [Object.prototype] is taken into account.
    - A settled promise is a [Completion]: [Resolved v] or [Rejected e].
      An [async] function is a function into [Run], a completion together
      with what the run did: the provider calls and timer waits of a send,
      the rounds of a batch run.
    - The provider ([sns.publish(params).promise()]) is an oracle: for the
      notification at a given input position and a given [retryCount] it
      tells how the call settles.  Every call of one [sendBatch] run has a
      distinct such key, so any behaviour of the provider is an oracle.
    - The sends of a batch run concurrently.  Their events are kept
      apart, send by send, and the order in which they settle, which
      decides the rejection that [Promise.all] reports, is a [Schedule]
      given with the oracle.
    - [sendBatch] loops for ever on some configurations; its loop takes
      fuel and yields [None] when the fuel does not suffice. *)

From Equations Require Import Equations.
From Stdlib Require Import ZArith NArith List String Ascii Bool Lia Arith DecimalString.
Import ListNotations.

Local Open Scope string_scope.
Local Open Scope list_scope.
Local Open Scope Z_scope.

(** ** JavaScript values *)

Module Js.

(** A number that may be [NaN], as [parseInt] and the conversion of a
    value to a number yield. *)
Inductive JsNumber : Type :=
| NaN
| Num (z : Z).

(** The values of the model: the primitive values, arrays, and plain
    objects, which read as ["[object Object]"].  Of an object that is no
    array the code observes that it is truthy, that it is no string, how
    it reads as a string, and, in the length checks of the validators,
    the number that its [length] property converts to in a comparison
    ([NaN] when it has none, as for [{}]); the object is modelled by that
    number. *)
#[warnings="-register-all"] Inductive JsValue : Type :=
| JUndefined
| JNull
| JBool (b : bool)
| JNumber (z : Z)
| JString (s : string)
| JArray (items : list JsValue)
| JObject (length : JsNumber).

(** [{}] *)
Definition empty_object : JsValue := JObject NaN.

(** [ToBoolean]: the falsy values are [undefined], [null], [false], [0]
    and the empty string. *)
Definition truthy (v : JsValue) : bool :=
  match v with
  | JUndefined | JNull => false
  | JBool b => b
  | JNumber z => negb (z =? 0)
  | JString s => negb (String.length s =? 0)%nat
  | JArray _ => true
  | JObject _ => true
  end.

(** A non-empty string is truthy. *)
Definition non_empty (s : string) : bool :=
  negb (String.length s =? 0)%nat.

(** [a || b] on values. *)
Definition or_else (a b : JsValue) : JsValue :=
  if truthy a then a else b.

(** Errors carry the [message] the code reads.  [TypeError] is raised by
    the language itself, [ProviderError] by the SDK call. *)
Inductive JsError : Type :=
| TypeError (msg : string)
| ProviderError (code msg : string).

Definition message (e : JsError) : string :=
  match e with
  | TypeError msg => msg
  | ProviderError _ msg => msg
  end.

Inductive Completion (A : Type) : Type :=
| Resolved (a : A)
| Rejected (e : JsError).
Arguments Resolved {A} a.
Arguments Rejected {A} e.

Definition is_rejected {A} (c : Completion A) : Prop :=
  exists e, c = Rejected e.

(** [s.substring(start, end)]: both indices are clamped to
    [0 .. s.length] and swapped when [start > end]. *)
Definition clamp (len : nat) (i : Z) : nat :=
  Nat.min (Z.to_nat i) len.

Definition substring (s : string) (start finish : Z) : string :=
  let a := clamp (String.length s) start in
  let b := clamp (String.length s) finish in
  String.substring (Nat.min a b) (Nat.max a b - Nat.min a b) s.

(** [a < b]: [false] when one of them is [NaN]. *)
Definition number_lt (a b : JsNumber) : bool :=
  match a, b with
  | Num x, Num y => x <? y
  | _, _ => false
  end.

(** [v.length], as a number in a comparison.  A string has its number of
    code units, an array its number of items, an object what its [length]
    property converts to; a number or a boolean has no [length], and
    [undefined] converts to [NaN].  The code reads the [length] of truthy
    values only: [undefined] and [null], of which the read itself would
    raise a [TypeError], never get here. *)
Definition length_of (v : JsValue) : JsNumber :=
  match v with
  | JString s => Num (Z.of_nat (String.length s))
  | JArray items => Num (Z.of_nat (List.length items))
  | JObject n => n
  | JUndefined | JNull | JBool _ | JNumber _ => NaN
  end.

(** [v.length > bound] *)
Definition length_gt (v : JsValue) (bound : Z) : bool :=
  number_lt (Num bound) (length_of v).

(** [arr.slice(start, end)]: a negative index counts from the end, and
    both are clamped to [0 .. arr.length]. *)
Definition relative_index (len : Z) (i : Z) : Z :=
  if i <? 0 then Z.max (len + i) 0 else Z.min i len.

Definition slice_from {A} (l : list A) (start : Z) : nat :=
  Z.to_nat (relative_index (Z.of_nat (List.length l)) start).

Definition slice_to {A} (l : list A) (finish : Z) : nat :=
  Z.to_nat (relative_index (Z.of_nat (List.length l)) finish).

Definition slice {A} (l : list A) (start finish : Z) : list A :=
  let k := slice_from l start in
  let final := slice_to l finish in
  firstn (final - k) (skipn k l).

(** *** Plain objects

    An object created by [{}] and filled by [obj[key] = value] is
    modelled by its own properties, in the order in which [Object.entries]
    and [JSON.stringify] list them: the keys that are array indices
    first, in ascending order, then the other keys in the order of their
    creation. *)
Definition JsObject (A : Type) : Type := list (string * A).

(** The array index a key stands for, if any: the canonical decimal
    numeral of an integer below [2^32 - 1]. *)
Definition array_index (key : string) : option N :=
  match NilEmpty.uint_of_string key with
  | Some digits =>
      let n := N.of_uint digits in
      if String.eqb (NilZero.string_of_uint (N.to_uint n)) key
         && (n <? 4294967295)%N
      then Some n else None
  | None => None
  end.

Fixpoint own_property {A} (key : string) (obj : JsObject A) : option A :=
  match obj with
  | [] => None
  | (k, x) :: rest =>
      if String.eqb k key then Some x else own_property key rest
  end.

(** A new value for an own property. *)
Fixpoint update_property {A} (key : string) (v : A) (obj : JsObject A)
  : JsObject A :=
  match obj with
  | [] => []
  | (k, x) :: rest =>
      if String.eqb k key then (k, v) :: rest
      else (k, x) :: update_property key v rest
  end.

(** A new own property, at its place in the order of the keys. *)
Fixpoint insert_property {A} (key : string) (v : A) (obj : JsObject A)
  : JsObject A :=
  match obj with
  | [] => [(key, v)]
  | (k, x) :: rest =>
      match array_index key, array_index k with
      | Some i, Some j =>
          if (i <? j)%N then (key, v) :: obj
          else (k, x) :: insert_property key v rest
      | Some _, None => (key, v) :: obj
      | None, _ => (k, x) :: insert_property key v rest
      end
  end.

Definition define_property {A} (key : string) (v : A) (obj : JsObject A)
  : JsObject A :=
  match own_property key obj with
  | Some _ => update_property key v obj
  | None => insert_property key v obj
  end.

(** The functions that every plain object inherits from
    [Object.prototype]. *)
Definition Object_prototype_functions : list string :=
  ["constructor"; "__defineGetter__"; "__defineSetter__"; "hasOwnProperty";
   "__lookupGetter__"; "__lookupSetter__"; "isPrototypeOf";
   "propertyIsEnumerable"; "toString"; "valueOf"; "toLocaleString"].


(** How Node.js prints a built-in function. *)
Definition native_function (name : string) : string :=
  "function " ++ name ++ "() { [native code] }".

(** [String(({})[key])] for a key that [{}] inherits: the text of the
    function ([constructor] is the function [Object]), and
    ["[object Object]"] for [__proto__], which reads as
    [Object.prototype]. *)
Definition inherited (key : string) : option string :=
  if String.eqb key "__proto__" then Some "[object Object]"
  else if String.eqb key "constructor" then Some (native_function "Object")
  else if existsb (String.eqb key) Object_prototype_functions
  then Some (native_function key)
  else None.

End Js.
Export Js.

(** ** Traces and runs *)

(** A notification object: the properties the sender reads. *)
Record Notification : Type := mkNotification {
  fcmToken : JsValue;
  title : JsValue;
  message_body : JsValue;   (* the property called [message] *)
  data : JsValue;
  batchId : JsValue
}.

(** The [message] object that is serialised into [params.Message]: the
    notification's own properties and [batchId]; its [timestamp] is the
    wall clock and is left out. *)
Record Message : Type := mkMessage {
  payload : Notification;
  msg_batchId : JsValue
}.

(** What one send does to the outside world. *)
Inductive Event : Type :=
| Publish (TopicArn : option string) (message : Message) (retryCount : Z)
    (* [sns.publish(params).promise()], issued by the call of
       [sendSingleNotification] with this [retryCount] *)
| Delay (ms : Z).
    (* [this.delay(this.retryDelay)] *)

(** What one round of the loop of [sendBatch] does.  The sends of a
    batch run concurrently: their events interleave in an order that the
    timing of the provider decides, and only the order within each send
    is fixed by the code.  A round therefore keeps the events of each
    send apart. *)
Inductive Round : Type :=
| ProcessingBatch (batch : list Notification) (sends : list (list Event))
    (* one iteration of the loop works on this slice; [sends] holds, for
       each notification of the slice in order, the events of its send *)
| Pause (ms : Z).
    (* [this.delay(this.delayBetweenBatches)] *)

(** A run: how it settles, and what it did, in order.  The steps are
    [Event]s for a send and [Round]s for a batch run. *)
Record Run (E A : Type) : Type := mkRun {
  outcome : Completion A;
  trace : list E
}.
Arguments mkRun {E A} outcome trace.
Arguments outcome {E A} r.
Arguments trace {E A} r.

(** [steps] happen, then [r] runs. *)
Definition after {E A} (steps : list E) (r : Run E A) : Run E A :=
  mkRun (outcome r) (steps ++ trace r).

(** ** The sender *)

Record Options : Type := mkOptions {
  opt_snsTopicArn : option string;
  opt_batchSize : option Z;
  opt_delayBetweenBatches : option Z;
  opt_maxRetries : option Z;
  opt_retryDelay : option Z
}.

Record BatchNotificationSender : Type := mkSender {
  snsTopicArn : option string;
  batchSize : Z;
  delayBetweenBatches : Z;
  maxRetries : Z;
  retryDelay : Z
}.

(** [options.x || d] for a numeric option. *)
Definition number_or (x : option Z) (d : Z) : Z :=
  match x with
  | Some v => if v =? 0 then d else v
  | None => d
  end.

(** [options.snsTopicArn || process.env.SNS_TOPIC_ARN]. *)
Definition string_or (x env : option string) : option string :=
  match x with
  | Some v => if (String.length v =? 0)%nat then env else Some v
  | None => env
  end.

Definition constructor (env_SNS_TOPIC_ARN : option string) (options : Options)
  : BatchNotificationSender :=
  {| snsTopicArn := string_or (opt_snsTopicArn options) env_SNS_TOPIC_ARN;
     batchSize := number_or (opt_batchSize options) 10;
     delayBetweenBatches := number_or (opt_delayBetweenBatches options) 1000;
     maxRetries := number_or (opt_maxRetries options) 3;
     retryDelay := number_or (opt_retryDelay options) 2000 |}.

(** [new BatchNotificationSender()], with [options = {}]. *)
Definition no_options : Options := mkOptions None None None None None.

(** [validateNotification]: the list of error messages. *)
Definition validateNotification (notification : Notification) : list string :=
  (if negb (truthy (fcmToken notification))
   then ["Missing fcmToken"] else [])
  ++ (if negb (truthy (title notification)) && negb (truthy (data notification))
      then ["Must have either title or data"] else [])
  ++ (if truthy (title notification) && length_gt (title notification) 100
      then ["Title too long (max 100 characters)"] else [])
  ++ (if truthy (message_body notification)
         && length_gt (message_body notification) 500
      then ["Message too long (max 500 characters)"] else []).

(** What the provider answers on success. *)
Record PublishResponse : Type := mkPublishResponse {
  MessageId : JsValue
}.

(** The record [sendSingleNotification] resolves to. *)
Record SendResult : Type := mkSendResult {
  success : JsValue;
  messageId : JsValue;
  error : JsValue;
  res_fcmToken : JsValue   (* the property called [fcmToken] *)
}.

(** [notification.fcmToken.substring(0, 10) + '...']: raises [TypeError]
    unless the token is a string.  The request handler logs the same
    expression of [body.fcmToken]. *)
Definition partialToken (token : JsValue) : Completion string :=
  match token with
  | JString s => Resolved (substring s 0 10 ++ "...")%string
  | JUndefined =>
      Rejected (TypeError "Cannot read properties of undefined (reading 'substring')")
  | JNull =>
      Rejected (TypeError "Cannot read properties of null (reading 'substring')")
  | _ => Rejected (TypeError "notification.fcmToken.substring is not a function")
  end.

(** The body of the [try] block once the provider call has settled. *)
Definition try_block (published : Completion PublishResponse)
    (notification : Notification) : Completion SendResult :=
  match published with
  | Resolved result =>
      match partialToken (fcmToken notification) with
      | Resolved shown =>
          Resolved {| success := JBool true;
                      messageId := MessageId result;
                      error := JUndefined;
                      res_fcmToken := JString shown |}
      | Rejected e => Rejected e
      end
  | Rejected e => Rejected e
  end.

(** The [return] of the [catch] block when no retry is left. *)
Definition failure_record (e : JsError) (notification : Notification)
  : Completion SendResult :=
  match partialToken (fcmToken notification) with
  | Resolved shown =>
      Resolved {| success := JBool false;
                  messageId := JUndefined;
                  error := JString (message e);
                  res_fcmToken := JString shown |}
  | Rejected e' => Rejected e'
  end.

(** The provider call of one attempt. *)
Definition publish_call (this : BatchNotificationSender)
    (notification : Notification) (retryCount : Z) : Event :=
  Publish (snsTopicArn this)
          {| payload := notification;
             msg_batchId := or_else (batchId notification) (JString "manual") |}
          retryCount.

(** [sendSingleNotification(notification, retryCount)].  The recursion is
    on [retryCount + 1], guarded by [retryCount < this.maxRetries]: the
    distance [maxRetries - retryCount] decreases. *)
Equations? sendSingleNotification (this : BatchNotificationSender)
    (publish : Z -> Completion PublishResponse)
    (notification : Notification) (retryCount : Z) : Run Event SendResult
    by wf (Z.to_nat (maxRetries this - retryCount)) lt :=
  sendSingleNotification this publish notification retryCount
    with try_block (publish retryCount) notification => {
    | Resolved r =>
        mkRun (Resolved r) [publish_call this notification retryCount];
    | Rejected e with Z_lt_dec retryCount (maxRetries this) => {
      | left _ =>
          after [publish_call this notification retryCount;
                 Delay (retryDelay this)]
            (sendSingleNotification this publish notification (retryCount + 1));
      | right _ =>
          mkRun (failure_record e notification)
                [publish_call this notification retryCount] } }.
Proof. lia. Qed.

(** The order in which the sends of a batch settle is decided by the
    timing of the provider, not by the code: [settles pos] is the time at
    which the send of the notification at input position [pos] settles.
    Two sends do not settle at the same time. *)
Definition Schedule : Type := nat -> nat.

(** The first rejection, in the order of settling, among promises of
    which the first is at input position [pos]: its time and its
    reason. *)
Fixpoint first_rejection {A} (settles : Schedule) (pos : nat)
    (promises : list (Completion A)) : option (nat * JsError) :=
  match promises with
  | [] => None
  | promise :: rest =>
      match promise, first_rejection settles (S pos) rest with
      | Rejected e, Some (time, e') =>
          if (time <? settles pos)%nat then Some (time, e')
          else Some (settles pos, e)
      | Rejected e, None => Some (settles pos, e)
      | Resolved _, later => later
      end
  end.

(** The values of the promises that resolve, in the order of the
    promises. *)
Fixpoint resolved_values {A} (promises : list (Completion A)) : list A :=
  match promises with
  | [] => []
  | Resolved a :: rest => a :: resolved_values rest
  | Rejected _ :: rest => resolved_values rest
  end.

(** [Promise.all(promises)]: when every promise resolves, the values in
    the order of the promises; otherwise the reason of the promise that
    is rejected first. *)
Definition Promise_all {A} (settles : Schedule) (pos : nat)
    (promises : list (Completion A)) : Completion (list A) :=
  match first_rejection settles pos promises with
  | Some (_, e) => Rejected e
  | None => Resolved (resolved_values promises)
  end.

(** [batch.map(f)], where [f] also learns the position of the element in
    the whole input, starting from [pos]. *)
Fixpoint map_from {A B} (f : nat -> A -> B) (pos : nat) (l : list A) : list B :=
  match l with
  | [] => []
  | a :: rest => f pos a :: map_from f (S pos) rest
  end.

(** How the provider settles the call made for the notification at an
    input position with a [retryCount]. *)
Definition Oracle : Type := nat -> Z -> Completion PublishResponse.

(** The callback of [batch.map]:
    [notification => this.sendSingleNotification(notification)], for the
    notification at input position [pos]. *)
Definition send_at (this : BatchNotificationSender) (oracle : Oracle)
    (pos : nat) (notification : Notification) : Run Event SendResult :=
  sendSingleNotification this (oracle pos) notification 0.

(** The [for] loop of [sendBatch], entered with the current [i] and
    [results].  When [Promise.all] is rejected the run is rejected at
    once; the other sends of the round go on by themselves, and the
    round lists what they do. *)
Fixpoint sendBatch_loop (fuel : nat) (this : BatchNotificationSender)
    (oracle : Oracle) (settles : Schedule) (notifications : list Notification)
    (i : Z) (results : list SendResult)
  : option (Run Round (list SendResult)) :=
  match fuel with
  | O => None
  | S fuel' =>
      if i <? Z.of_nat (List.length notifications) then
        let batch := slice notifications i (i + batchSize this) in
        let pos := slice_from notifications i in
        let batchPromises := map_from (send_at this oracle) pos batch in
        let round := ProcessingBatch batch (map trace batchPromises) in
        match Promise_all settles pos (map outcome batchPromises) with
        | Resolved batchResults =>
            let pause :=
              if i + batchSize this <? Z.of_nat (List.length notifications)
              then [Pause (delayBetweenBatches this)] else [] in
            option_map
              (after (round :: pause))
              (sendBatch_loop fuel' this oracle settles notifications
                 (i + batchSize this) (results ++ batchResults))
        | Rejected e => Some (mkRun (Rejected e) [round])
        end
      else Some (mkRun (Resolved results) [])
  end.

Definition sendBatch (fuel : nat) (this : BatchNotificationSender)
    (oracle : Oracle) (settles : Schedule) (notifications : list Notification)
  : option (Run Round (list SendResult)) :=
  sendBatch_loop fuel this oracle settles notifications 0 [].

(** The slices the loop of a run worked on, in order. *)
Fixpoint batches_of (rounds : list Round) : list (list Notification) :=
  match rounds with
  | [] => []
  | ProcessingBatch batch _ :: rest => batch :: batches_of rest
  | Pause _ :: rest => batches_of rest
  end.

(** The events of the sends of a run, send by send, in the order of the
    notifications. *)
Fixpoint sends_of (rounds : list Round) : list (list Event) :=
  match rounds with
  | [] => []
  | ProcessingBatch _ sends :: rest => sends ++ sends_of rest
  | Pause _ :: rest => sends_of rest
  end.

(** The waits between the batches of a run, in order. *)
Fixpoint pauses_of (rounds : list Round) : list Z :=
  match rounds with
  | [] => []
  | ProcessingBatch _ _ :: rest => pauses_of rest
  | Pause ms :: rest => ms :: pauses_of rest
  end.

(** [String(x)] for a number [x].  An integer up to [2^53] reads as its
    decimal digits.  A larger number [x = m * 2^q], [m] of 53 bits,
    reads as the shortest digits [s] such that [s * 10^(n-k)], [k] the
    number of digits of [s], is nearer to [x] than to any other number,
    followed by zeros when [n <= 21] and by an exponent otherwise. *)
Definition digits (z : Z) : string :=
  DecimalString.NilZero.string_of_uint (N.to_uint (Z.to_N z)).

Definition number_of_digits (z : Z) : Z :=
  Z.of_nat (String.length (digits z)).

(** Does the numeral [v] denote the number [x = m * 2^q]?  The numbers
    next to [x] are [2^q] away, the one below half of that when [m] is
    [2^52]; a numeral half way denotes the number of even [m]. *)
Definition reads_as (x q v : Z) : bool :=
  let ulp := 2 ^ q in
  let m := x / ulp in
  let below := if m =? 2 ^ 52 then ulp else 2 * ulp in
  let low := 4 * x - below in
  let high := 4 * x + 2 * ulp in
  if Z.even m then (low <=? 4 * v) && (4 * v <=? high)
  else (low <? 4 * v) && (4 * v <? high).

(** The shortest numeral of [x] of [k] digits or more: its digits [s] and
    the number [n] of digits of [s * 10^(n-k)].  Of two numerals of the
    same length the nearer one is taken, and the even one when they are
    as near. *)
Fixpoint shortest (fuel : nat) (x q len k : Z) : Z * Z :=
  match fuel with
  | O => (x, len)
  | S fuel' =>
      let unit := 10 ^ (len - k) in
      let s1 := x / unit in
      let s2 := s1 + 1 in
      let ok1 := reads_as x q (s1 * unit) in
      let ok2 := reads_as x q (s2 * unit) in
      let nearer2 :=
        let d1 := x - s1 * unit in
        let d2 := s2 * unit - x in
        (d2 <? d1) || ((d2 =? d1) && Z.even s2) in
      if ok2 && (negb ok1 || nearer2) then
        if s2 =? 10 ^ k then (10 ^ (k - 1), len + 1) else (s2, len)
      else if ok1 then (s1, len)
      else shortest fuel' x q len (k + 1)
  end.

Definition positive_to_string (x : Z) : string :=
  if x <=? 2 ^ 53 then digits x
  else
    let q := Z.log2 x - 52 in
    let (s, n) := shortest 25 x q (number_of_digits x) 1 in
    let k := number_of_digits s in
    if n <=? 21 then
      digits s ++ string_of_list_ascii (repeat "0"%char (Z.to_nat (n - k)))
    else
      match digits s with
      | String d rest =>
          String d match rest with
                   | EmptyString => EmptyString
                   | _ => String "." rest
                   end
          ++ "e+" ++ digits (n - 1)
      | EmptyString => EmptyString
      end.

Definition number_to_string (z : Z) : string :=
  if z <? 0 then "-" ++ positive_to_string (- z) else positive_to_string z.

(** [String(v)], used when a value becomes a property key or a part of
    a message.  The items of an array are joined by commas, [undefined]
    and [null] among them reading as the empty string. *)
Fixpoint to_property_key (v : JsValue) : string :=
  match v with
  | JUndefined => "undefined"
  | JNull => "null"
  | JBool true => "true"
  | JBool false => "false"
  | JNumber z => number_to_string z
  | JString s => s
  | JArray items =>
      String.concat ","
        (map (fun item =>
                match item with
                | JUndefined | JNull => ""
                | _ => to_property_key item
                end) items)
  | JObject _ => "[object Object]"
  end.

(** A value of [errorCounts]: a count, or the text that [+ 1] makes of
    a value that is no number. *)
Inductive Count : Type :=
| Counted (n : nat)
| Text (s : string).

(** [(x || 0) + 1] for an own value [x] of [errorCounts]. *)
Definition incremented (x : Count) : Count :=
  match x with
  | Counted n => Counted (S n)
  | Text s => if non_empty s then Text (s ++ "1") else Counted 1
  end.

(** [errorCounts[key] = (errorCounts[key] || 0) + 1] on the plain object
    [errorCounts].  For a key that the object inherits and does not yet
    own, [errorCounts[key]] is the inherited member, which is truthy, and
    [+ 1] appends ["1"] to its text.  An assignment to [__proto__] of a
    value that is no object stores nothing. *)
Definition count_error (key : string) (errorCounts : JsObject Count)
  : JsObject Count :=
  if String.eqb key "__proto__" then errorCounts
  else
    match own_property key errorCounts with
    | Some x => update_property key (incremented x) errorCounts
    | None =>
        insert_property key
          match inherited key with
          | Some text => Text (text ++ "1")
          | None => Counted 1
          end
          errorCounts
    end.

(** [result.error || 'Unknown error'], as a property key. *)
Definition error_key (error : JsValue) : string :=
  to_property_key (or_else error (JString "Unknown error")).

Record Summary : Type := mkSummary {
  total : nat;
  successful : nat;
  failed : nat
  (* [successRate] is a formatted floating point number and [timestamp]
     the wall clock: neither is modelled *)
}.

Record Report : Type := mkReport {
  summary : Summary;
  errorCounts : JsObject Count;
  failedNotifications : list SendResult;
  sampleSuccesses : list SendResult
}.

Definition generateSummary (results : list SendResult) : Report :=
  let successful := filter (fun r => truthy (success r)) results in
  let failed := filter (fun r => negb (truthy (success r))) results in
  {| summary := {| total := List.length results;
                   successful := List.length successful;
                   failed := List.length failed |};
     errorCounts :=
       fold_left
         (fun counts result => count_error (error_key (error result)) counts)
         failed [];
     failedNotifications := slice failed 0 10;
     sampleSuccesses := slice successful 0 5 |}.

(** ** The token validators *)

Definition in_range (lo hi : nat) (c : ascii) : bool :=
  let n := nat_of_ascii c in ((lo <=? n) && (n <=? hi))%nat.

(** [[A-Za-z0-9]] *)
Definition alphanumeric (c : ascii) : bool :=
  in_range 65 90 c || in_range 97 122 c || in_range 48 57 c.

(** [[A-Za-z0-9_:.-]] *)
Definition token_char (c : ascii) : bool :=
  alphanumeric c || Ascii.eqb c "_" || Ascii.eqb c ":" || Ascii.eqb c "."
  || Ascii.eqb c "-".

(** [[A-Za-z0-9_-]] *)
Definition prefix_char (c : ascii) : bool :=
  alphanumeric c || Ascii.eqb c "_" || Ascii.eqb c "-".

Fixpoint all_chars (p : ascii -> bool) (s : string) : bool :=
  match s with
  | EmptyString => true
  | String c rest => p c && all_chars p rest
  end.

(** [/^[A-Za-z0-9_:.-]+$/.test(s)] *)
Definition test_token_chars (s : string) : bool :=
  negb (String.length s =? 0)%nat && all_chars token_char s.

(** The rest of [s] after its longest prefix of [prefix_char]s. *)
Fixpoint skip_prefix_chars (s : string) : string :=
  match s with
  | EmptyString => EmptyString
  | String c rest => if prefix_char c then skip_prefix_chars rest else s
  end.

(** [s.match(/^[A-Za-z0-9_-]+:[A-Za-z0-9_-]+/)] finds a match. *)
Definition match_fcm_format (s : string) : bool :=
  match s with
  | EmptyString => false
  | String c rest =>
      prefix_char c &&
      match skip_prefix_chars rest with
      | String sep (String d _) => Ascii.eqb sep ":" && prefix_char d
      | _ => false
      end
  end.

(** [validateFCMToken(token)] of the notification test tool. *)
Definition validateFCMToken (token : JsValue) : bool :=
  match token with
  | JString s =>
      if negb (truthy token) then false
      else if (String.length s <? 140)%nat || (200 <? String.length s)%nat
      then false
      else if negb (test_token_chars s) then false
      else true
  | _ => false
  end.

Record FormatValidation : Type := mkFormatValidation {
  valid : bool;
  errors : list string
}.

(** [FCMTokenValidator.validateTokenFormat(token)]. *)
Definition validateTokenFormat (token : JsValue) : FormatValidation :=
  match token with
  | JString s =>
      if negb (truthy token)
      then {| valid := false; errors := ["Token must be a non-empty string"] |}
      else
        let errors :=
          (if (String.length s <? 140)%nat
           then ["Token too short (minimum 140 characters)"]
           else if (200 <? String.length s)%nat
           then ["Token too long (maximum 200 characters)"]
           else [])
          ++ (if negb (test_token_chars s)
              then ["Token contains invalid characters"] else [])
          ++ (if negb (match_fcm_format s)
              then ["Token does not match expected FCM format"] else []) in
        {| valid := (List.length errors =? 0)%nat; errors := errors |}
  | _ => {| valid := false; errors := ["Token must be a non-empty string"] |}
  end.

(** ** Observations on runs *)

Definition is_publish (e : Event) : bool :=
  match e with Publish _ _ _ => true | _ => false end.

(** How often a send called the provider. *)
Definition provider_calls (events : list Event) : nat :=
  List.length (filter is_publish events).

(** The waits of a send, in order. *)
Fixpoint delays_of (events : list Event) : list Z :=
  match events with
  | [] => []
  | Delay ms :: rest => ms :: delays_of rest
  | _ :: rest => delays_of rest
  end.

(** A retry of [sendSingleNotification] is one pass through
    [await this.delay(this.retryDelay)] and the recursive call. *)
Definition retries (events : list Event) : nat :=
  List.length (delays_of events).

(** The trace of a send whose first [k] attempts fail and are retried:
    [k + 1] provider calls, a wait of [retryDelay] before each retry. *)
Fixpoint attempts (this : BatchNotificationSender) (notification : Notification)
    (retryCount : Z) (k : nat) : list Event :=
  match k with
  | O => [publish_call this notification retryCount]
  | S k' =>
      publish_call this notification retryCount
      :: Delay (retryDelay this)
      :: attempts this notification (retryCount + 1) k'
  end.

Definition is_string (v : JsValue) : Prop := exists s, v = JString s.

(** [results] holds, position by position, what the send of each
    notification of [notifications] resolved to; the first notification
    is at input position [pos]. *)
Inductive sent_in_order (this : BatchNotificationSender) (oracle : Oracle)
  : nat -> list Notification -> list SendResult -> Prop :=
| sent_nil pos : sent_in_order this oracle pos [] []
| sent_cons pos notification notifications r results :
    outcome (send_at this oracle pos notification) = Resolved r ->
    sent_in_order this oracle (S pos) notifications results ->
    sent_in_order this oracle pos (notification :: notifications) (r :: results).

(** Every batch but the last has exactly [N] elements; the last has
    between one and [N]. *)
Fixpoint exact_except_last {A} (N : nat) (batches : list (list A)) : Prop :=
  match batches with
  | [] => True
  | b :: rest =>
      match rest with
      | [] => (0 < List.length b <= N)%nat
      | _ :: _ => List.length b = N /\ exact_except_last N rest
      end
  end.

Definition sizes {A} (batches : list (list A)) : list nat :=
  map (@List.length A) batches.

(** The plan the specification describes: consecutive groups of [N]
    elements, the last one possibly smaller.  It is compared below with
    the slices the loop of [sendBatch] takes. *)
Equations? chunks {A} (N : nat) (l : list A) : list (list A)
    by wf (List.length l) lt :=
  chunks 0 _ := [];
  chunks (S n) [] := [];
  chunks (S n) (a :: l) := (a :: firstn n l) :: chunks (S n) (skipn n l).
Proof. rewrite length_skipn. lia. Qed.

(** ** The vocabulary of the specification

    The sender has no error classification, no backoff schedule, no
    circuit breaker and no configuration error.  The definitions of this
    module state what the specification says of them, so that it can be
    compared with the runs of the code. *)

Module Spec.

Inductive DeliveryOutcome : Type :=
| Delivered | InvalidRecipient | RecipientMoved | Transient | Fatal.

Definition permanent (o : DeliveryOutcome) : bool :=
  match o with
  | InvalidRecipient | RecipientMoved => true
  | _ => false
  end.

(** A classification of provider errors by their code, as an instance:
    a disabled or unknown endpoint is an invalid recipient. *)
Definition classify_by_code (e : JsError) : DeliveryOutcome :=
  match e with
  | ProviderError code _ =>
      if String.eqb code "EndpointDisabled" || String.eqb code "NotFound"
      then InvalidRecipient
      else Transient
  | TypeError _ => Fatal
  end.

(** A recipient whose first failure is classified permanent is
    dispatched once only. *)
Definition no_retry_of_permanent (classify : JsError -> DeliveryOutcome)
    (this : BatchNotificationSender) : Prop :=
  forall publish notification e,
    publish 0 = Rejected e ->
    permanent (classify e) = true ->
    provider_calls (trace (sendSingleNotification this publish notification 0))
    = 1%nat.

(** The wait before retry round [k] is [base * 2^k] capped at
    [maxDelay], plus a jitter in [[0, jitterWindow)]. *)
Definition exponential_backoff (base maxDelay jitterWindow : Z)
    (delays : list Z) : Prop :=
  forall k d, nth_error delays k = Some d ->
    exists jitter, 0 <= jitter < jitterWindow /\
      d = Z.min (base * 2 ^ Z.of_nat k) maxDelay + jitter.

(** The wait grows strictly from one round to the next as long as the
    cap is not reached. *)
Definition grows_until_cap (base maxDelay : Z) (delays : list Z) : Prop :=
  forall k d d',
    nth_error delays k = Some d -> nth_error delays (S k) = Some d' ->
    base * 2 ^ Z.of_nat k < maxDelay -> d < d'.



(** Alphanumeric, or one of [_ : . -]. *)
Definition allow_listed (c : ascii) : Prop :=
  let n := nat_of_ascii c in
  (65 <= n <= 90)%nat \/ (97 <= n <= 122)%nat \/ (48 <= n <= 57)%nat
  \/ c = "_"%char \/ c = ":"%char \/ c = "."%char \/ c = "-"%char.

(** Alphanumeric, or one of [_ -]. *)
Definition prefix_listed (c : ascii) : Prop :=
  let n := nat_of_ascii c in
  (65 <= n <= 90)%nat \/ (97 <= n <= 122)%nat \/ (48 <= n <= 57)%nat
  \/ c = "_"%char \/ c = "-"%char.

Definition chars_of (s : string) : list ascii := list_ascii_of_string s.

(** A non-empty string of [140] to [200] characters, all of them on the
    allow-list. *)
Definition well_formed_token (token : JsValue) : Prop :=
  exists s, token = JString s /\ s <> ""
    /\ (140 <= String.length s <= 200)%nat
    /\ Forall allow_listed (chars_of s).

Definition accepts_exactly_well_formed (validator : JsValue -> bool) : Prop :=
  forall token, validator token = true <-> well_formed_token token.

(** The string starts with one or more [prefix_listed] characters, a
    colon, and one or more [prefix_listed] characters. *)
Definition starts_with_fcm_prefix (s : string) : Prop :=
  exists w1 w2 rest,
    s = (w1 ++ ":" ++ w2 ++ rest)%string
    /\ w1 <> "" /\ w2 <> ""
    /\ Forall prefix_listed (chars_of w1)
    /\ Forall prefix_listed (chars_of w2).

End Spec.

(** ** Sample inputs *)

Definition default_sender : BatchNotificationSender :=
  constructor None no_options.

Definition with_batchSize (size : Z) : Options :=
  mkOptions None (Some size) None None None.

Definition with_maxRetries (n : Z) : Options :=
  mkOptions None None None (Some n) None.

(** [{ fcmToken: token, title: 'Hi' }] *)
Definition titled (token : JsValue) : Notification :=
  mkNotification token (JString "Hi") JUndefined JUndefined JUndefined.

Definition sample_token : string := "dGVzdC10b2tlbi0wMDE6QVBBOTFi".

Definition throttled : Z -> Completion PublishResponse :=
  fun _ => Rejected (ProviderError "Throttling" "Rate exceeded").

Definition endpoint_disabled : Z -> Completion PublishResponse :=
  fun _ => Rejected (ProviderError "EndpointDisabled" "Endpoint is disabled").

Definition accepted : Z -> Completion PublishResponse :=
  fun _ => Resolved {| MessageId := JString "msg-1" |}.

Definition long_token (c : ascii) (n : nat) : string :=
  string_of_list_ascii (repeat c n).

(** The sends settle in the order of the input. *)
Definition in_order : Schedule := fun pos => pos.

(** * The rest of the tools

    The functions around the ones above: the file loader and the command
    line driver of the batch sender, the request handler, and the other
    methods of the token validator. *)

(** ** Strings *)

(** [s.split(sep)] for a separator of one character: the pieces between
    the separators, at least one. *)
Fixpoint split (sep : ascii) (s : string) : list string :=
  match s with
  | EmptyString => [EmptyString]
  | String c rest =>
      if Ascii.eqb c sep then EmptyString :: split sep rest
      else match split sep rest with
           | piece :: pieces => String c piece :: pieces
           | [] => [String c EmptyString]
           end
  end.

(** White space for [trim], among the code units of the model: tab, line
    feed, vertical tab, form feed, carriage return, space and the
    no-break space. *)
Definition white_space (c : ascii) : bool :=
  let n := nat_of_ascii c in
  ((9 <=? n) && (n <=? 13) || (n =? 32) || (n =? 160))%nat.

Fixpoint trimStart (s : string) : string :=
  match s with
  | EmptyString => EmptyString
  | String c rest => if white_space c then trimStart rest else s
  end.

Fixpoint trimEnd (s : string) : string :=
  match s with
  | EmptyString => EmptyString
  | String c rest =>
      match trimEnd rest with
      | EmptyString => if white_space c then EmptyString else String c EmptyString
      | kept => String c kept
      end
  end.

(** [s.trim()] *)
Definition trim (s : string) : string := trimEnd (trimStart s).

(** [`${n}`] for a natural number. *)
Definition decimal (n : nat) : string :=
  DecimalString.NilZero.string_of_uint (Nat.to_uint n).

(** ** The object of a CSV row *)

(** [notification[header] = value] for the cell of a CSV row, a string or
    [undefined] ([None]).  The key [__proto__] names the inherited
    accessor: assigning such a value to it stores nothing. *)
Definition set_property (key : string) (v : option string)
    (obj : JsObject (option string)) : JsObject (option string) :=
  if String.eqb key "__proto__" then obj else define_property key v obj.

(** The properties that the sender reads of a notification.  None of
    them is a member of [Object.prototype]: reading one yields the own
    property of that name, or [undefined]. *)
Inductive PropertyName : Type :=
| P_fcmToken | P_title | P_message | P_data | P_batchId.

Definition property_key (p : PropertyName) : string :=
  match p with
  | P_fcmToken => "fcmToken"
  | P_title => "title"
  | P_message => "message"
  | P_data => "data"
  | P_batchId => "batchId"
  end.

(** [notification.fcmToken], [notification.title], ... of a CSV row. *)
Definition get_property (p : PropertyName) (obj : JsObject (option string))
  : JsValue :=
  match own_property (property_key p) obj with
  | Some (Some cell) => JString cell
  | Some None | None => JUndefined
  end.

(** The properties of a CSV row that the sender reads. *)
Definition notification_of (obj : JsObject (option string)) : Notification :=
  {| fcmToken := get_property P_fcmToken obj;
     title := get_property P_title obj;
     message_body := get_property P_message obj;
     data := get_property P_data obj;
     batchId := get_property P_batchId obj |}.

(** ** Loading notifications *)

(** What [JSON.parse(content)] yields, as far as the loaders look at it:
    a syntax error, an array, an object whose relevant property
    ([notifications], [tokens]) is an array, [null], or any other
    value.  The items of an array of notifications are taken to be
    objects. *)
Inductive ParsedJson (A : Type) : Type :=
| JsonSyntaxError
| JsonArray (items : list A)
| JsonWithArray (items : list A)
| JsonNull
| JsonOther.
Arguments JsonSyntaxError {A}.
Arguments JsonArray {A} items.
Arguments JsonWithArray {A} items.
Arguments JsonNull {A}.
Arguments JsonOther {A}.

(** A call that returns, or throws [new Error(message)]. *)
Inductive Loaded (A : Type) : Type :=
| Returned (a : A)
| Thrown (message : string).
Arguments Returned {A} a.
Arguments Thrown {A} message.

(** [values[index]]: [undefined] ([None]) past the end. *)
Definition value_at (values : list string) (index : nat) : option string :=
  nth_error values index.

(** [headers.forEach((header, index) => notification[header] =
    values[index])], from [index] on. *)
Fixpoint fill_from (headers : list string) (index : nat) (values : list string)
    (notification : JsObject (option string)) : JsObject (option string) :=
  match headers with
  | [] => notification
  | header :: rest =>
      fill_from rest (S index) values
        (set_property header (value_at values index) notification)
  end.

(** One data line of a CSV file. *)
Definition csv_row (headers : list string) (line : string)
  : JsObject (option string) :=
  let values := map trim (split "," line) in
  fill_from headers 0 values [].

(** The [catch] branch of the inner [try]: the content read as CSV.
    [lines[0].split] raises a [TypeError] when no line is left. *)
Definition parse_csv (content : string) : Loaded (list Notification) :=
  let lines := filter (fun line => non_empty (trim line)) (split "010" content) in
  match lines with
  | [] => Thrown "Cannot read properties of undefined (reading 'split')"
  | first :: rows =>
      let headers := map trim (split "," first) in
      Returned (map (fun line => notification_of (csv_row headers line)) rows)
  end.

(** [loadNotificationsFromFile(filePath)].  [read] is what
    [fs.readFileSync] does, [JSON_parse] what [JSON.parse] does. *)
Definition loadNotificationsFromFile (filePath : string)
    (read : Loaded string)
    (JSON_parse : string -> ParsedJson Notification)
  : Loaded (list Notification) :=
  let wrap (message : string) : Loaded (list Notification) :=
    Thrown ("Failed to load notifications from " ++ filePath ++ ": "
            ++ message)%string in
  match read with
  | Thrown message => wrap message
  | Returned content =>
      match JSON_parse content with
      | JsonArray notifications => Returned notifications
      | JsonWithArray notifications => Returned notifications
      | JsonOther => wrap "File must contain an array of notifications"
      | JsonSyntaxError | JsonNull =>
          match parse_csv content with
          | Returned notifications => Returned notifications
          | Thrown message => wrap message
          end
      end
  end.

(** ** The command line driver of the batch sender *)

(** [validationErrors]: one line per notification with errors, numbered
    from [index + 1]. *)
Fixpoint validation_errors_from (index : nat) (notifications : list Notification)
  : list string :=
  match notifications with
  | [] => []
  | notification :: rest =>
      let errors := validateNotification notification in
      (if (0 <? List.length errors)%nat
       then [("Notification " ++ decimal (index + 1) ++ ": "
              ++ String.concat ", " errors)%string]
       else [])
      ++ validation_errors_from (S index) rest
  end.

(** The command line as [main] reads it: which flags are among the
    arguments ([args.indexOf(flag) !== -1]) and, for a flag that is, the
    argument that follows it ([args[index + 1]]): [undefined] ([None])
    when the flag comes last, and for the numeric flags what [parseInt]
    makes of it. *)
Record CommandLine : Type := mkCommandLine {
  arg_help : bool;                        (* [--help] or [-h] *)
  arg_generate : option JsNumber;         (* [--generate <count>] *)
  arg_file : option (option string);      (* [--file <path>] *)
  arg_batch_size : option JsNumber;       (* [--batch-size <number>] *)
  arg_delay : option JsNumber;            (* [--delay <ms>] *)
  arg_max_retries : option JsNumber;      (* [--max-retries <number>] *)
  arg_output : option (option string);    (* [--output <path>] *)
  arg_topic_arn : option (option string)  (* [--topic-arn <arn>] *)
}.

(** [index !== -1 ? parseInt(args[index + 1]) : d], as an option of the
    sender: [NaN] is [None]. *)
Definition parsed_or (x : option JsNumber) (d : Z) : option Z :=
  match x with
  | None => Some d
  | Some NaN => None
  | Some (Num z) => Some z
  end.

(** The [options] that [main] passes to the sender. *)
Definition main_options (snsTopicArn : string) (args : CommandLine) : Options :=
  {| opt_snsTopicArn := Some snsTopicArn;
     opt_batchSize := parsed_or (arg_batch_size args) 10;
     opt_delayBetweenBatches := parsed_or (arg_delay args) 1000;
     opt_maxRetries := parsed_or (arg_max_retries args) 3;
     opt_retryDelay := None |}.

(** [`${filePath}`] *)
Definition path_text (filePath : option string) : string :=
  match filePath with
  | Some path => path
  | None => "undefined"
  end.

(** What an invocation of [main] that ends in [process.exit] has done:
    the lines it printed on the error stream (without the pictograph that
    starts some of them), the report it displayed, the rounds of the
    sender, and the results file it wrote.  [interrupted] tells that the
    process exits on a rejected send while the other sends of the last
    round are under way: of their events, some have not happened. *)
Record Exit : Type := mkExit {
  exitCode : Z;
  stderr : list string;
  displayed : option Report;
  events : list Round;
  interrupted : bool;
  saved : option string
}.

(** An exit before anything was sent. *)
Definition quit (code : Z) (lines : list string) : Exit :=
  mkExit code lines None [] false None.

(** How [main] ends: with [process.exit], or, for [--generate], with the
    call [generateSampleFile(count, outputPath)], of which the arguments
    are recorded ([None] is [undefined]). *)
Inductive Ending : Type :=
| Exits (exit : Exit)
| Generates (count : Z) (outputPath : option string).

(** The file that [main] writes the results to: the truthy [outputPath]
    of [outputIndex !== -1 ? args[outputIndex + 1] : null]. *)
Definition results_file (args : CommandLine) : option string :=
  match arg_output args with
  | Some (Some path) => if non_empty path then Some path else None
  | Some None | None => None
  end.

(** The [try] statement of [main]: load, validate, send, report.
    [write] is what [fs.writeFileSync] does if it is called: [Some
    message] when it throws.  [None]: [sendBatch] does not return. *)
Definition main_try (fuel : nat) (args : CommandLine) (snsTopicArn : string)
    (filePath : option string) (env_SNS_TOPIC_ARN : option string)
    (read : Loaded string) (JSON_parse : string -> ParsedJson Notification)
    (oracle : Oracle) (settles : Schedule) (write : option string)
  : option Exit :=
  match loadNotificationsFromFile (path_text filePath) read JSON_parse with
  | Thrown message => Some (quit 1 [("Error: " ++ message)%string])
  | Returned notifications =>
      let validationErrors := validation_errors_from 0 notifications in
      if (0 <? List.length validationErrors)%nat then
        Some (quit 1
                (["Validation errors found:"]
                 ++ map (fun e => ("  " ++ e)%string)
                      (slice validationErrors 0 5)
                 ++ (if (5 <? List.length validationErrors)%nat
                     then [("  ... and "
                            ++ decimal (List.length validationErrors - 5)
                            ++ " more errors")%string]
                     else [])))
      else
        let sender :=
          constructor env_SNS_TOPIC_ARN (main_options snsTopicArn args) in
        match sendBatch fuel sender oracle settles notifications with
        | None => None
        | Some run =>
            match outcome run with
            | Rejected e =>
                Some (mkExit 1 [("Error: " ++ message e)%string] None
                        (trace run) true None)
            | Resolved results =>
                let report := generateSummary results in
                let code :=
                  if (0 <? failed (summary report))%nat then 1 else 0 in
                match results_file args, write with
                | Some path, Some message =>
                    Some (mkExit 1 [("Error: " ++ message)%string]
                            (Some report) (trace run) false None)
                | Some path, None =>
                    Some (mkExit code [] (Some report) (trace run) false
                            (Some path))
                | None, _ =>
                    Some (mkExit code [] (Some report) (trace run) false None)
                end
            end
        end
  end.

Definition missing_topic_arn : string :=
  "Please specify SNS Topic ARN via --topic-arn or "
  ++ "SNS_TOPIC_ARN environment variable".

(** [main()].  [None]: it does not end. *)
Definition main (fuel : nat) (args : CommandLine)
    (env_SNS_TOPIC_ARN : option string)
    (read : Loaded string) (JSON_parse : string -> ParsedJson Notification)
    (oracle : Oracle) (settles : Schedule) (write : option string)
  : option Ending :=
  if arg_help args then Some (Exits (quit 0 []))
  else
    match arg_generate args with
    | Some count =>
        Some (Generates
                (number_or (match count with NaN => None | Num z => Some z end)
                   10)
                (match arg_output args with
                 | Some path => path
                 | None => Some "sample-notifications.json"
                 end))
    | None =>
        match arg_file args with
        | None => Some (Exits (quit 1 ["Please specify --file or --generate"]))
        | Some filePath =>
            let snsTopicArn :=
              match arg_topic_arn args with
              | Some arn => arn
              | None => env_SNS_TOPIC_ARN
              end in
            match snsTopicArn with
            | Some arn =>
                if non_empty arn
                then option_map Exits
                       (main_try fuel args arn filePath env_SNS_TOPIC_ARN read
                          JSON_parse oracle settles write)
                else Some (Exits (quit 1 [missing_topic_arn]))
            | None =>
                Some (Exits (quit 1 [missing_topic_arn]))
            end
        end
    end.

(** ** The request handler *)

(** The properties of the parsed request body that the handler reads. *)
Record RequestBody : Type := mkRequestBody {
  body_fcmToken : JsValue;
  body_title : JsValue;
  body_message : JsValue;
  body_data : JsValue;
  body_android : JsValue
}.

(** [v.length < bound] *)
Definition length_lt (v : JsValue) (bound : Z) : bool :=
  number_lt (length_of v) (Num bound).

(** [typeof v !== 'string'] *)
Definition not_a_string (v : JsValue) : bool :=
  match v with
  | JString _ => false
  | _ => true
  end.

(** [validateInput(body)] *)
Definition validateInput (body : RequestBody) : list string :=
  (if negb (truthy (body_fcmToken body)) then ["Missing FCM token"]
   else if not_a_string (body_fcmToken body)
           || length_lt (body_fcmToken body) 10
   then ["Invalid FCM token format"] else [])
  ++ (if negb (truthy (body_title body)) then ["Missing notification title"]
      else if length_gt (body_title body) 100
      then ["Title too long (max 100 characters)"] else [])
  ++ (if negb (truthy (body_message body))
      then ["Missing notification message"]
      else if length_gt (body_message body) 500
      then ["Message too long (max 500 characters)"] else []).

(** What [JSON.parse(event.body || '{}')] yields: a syntax error,
    [null], or a value with the properties of a [RequestBody] (for a
    number, a string or a boolean they are all [undefined]). *)
Inductive ParsedBody : Type :=
| BodySyntaxError
| BodyNull
| BodyValue (body : RequestBody).

(** The object that is serialised into the [body] of the response;
    [timestamp] is the wall clock and is left out. *)
Record ResponseBody : Type := mkResponseBody {
  resp_success : bool;
  resp_error : option string;
  resp_details : list string;
  resp_messageId : JsValue
}.

Record Response : Type := mkResponse {
  statusCode : Z;
  response_body : ResponseBody
}.

(** What the handler does to the outside world. *)
Inductive HandlerEvent : Type :=
| IncrementCounter (metricName : string)
| RecordLatency (metricName : string)
| SnsPublish (snsMessage : RequestBody) (requestId : string)
| LogPartialToken (shown : string).

(** The handler returns a response, or throws. *)
Inductive Handled : Type :=
| Responds (response : Response)
| Throws (name message : string).

Record Handling : Type := mkHandling {
  handled : Handled;
  handler_events : list HandlerEvent
}.

(** The [catch] block of the handler.  [body] is declared with [let]
    inside the [try] block and is not in scope here: after the error
    counter, the evaluation of [body?.fcmToken] raises a
    [ReferenceError], and the [return] with status 500 is not reached. *)
Definition handler_catch (before : list HandlerEvent) : Handling :=
  mkHandling (Throws "ReferenceError" "body is not defined")
             (before ++ [IncrementCounter "LambdaErrors"]).

(** [exports.handler(event, context)], with [requestId =
    context.awsRequestId], [parsed] the result of parsing the body and
    [published] the way [sns.publish] settles if it is called. *)
Definition handler (requestId : string) (parsed : ParsedBody)
    (published : Completion PublishResponse) : Handling :=
  match parsed with
  | BodySyntaxError =>
      mkHandling
        (Responds
           {| statusCode := 400;
              response_body :=
                {| resp_success := false;
                   resp_error := Some "Invalid JSON in request body";
                   resp_details := [];
                   resp_messageId := JUndefined |} |})
        [IncrementCounter "ParseErrors"]
  | BodyNull =>
      (* [validateInput(null)] raises a [TypeError] *)
      handler_catch []
  | BodyValue body =>
      let validationErrors := validateInput body in
      if (0 <? List.length validationErrors)%nat then
        mkHandling
          (Responds
             {| statusCode := 400;
                response_body :=
                  {| resp_success := false;
                     resp_error := Some "Validation failed";
                     resp_details := validationErrors;
                     resp_messageId := JUndefined |} |})
          [IncrementCounter "ValidationErrors"]
      else
        let snsMessage :=
          {| body_fcmToken := body_fcmToken body;
             body_title := body_title body;
             body_message := body_message body;
             body_data := or_else (body_data body) empty_object;
             body_android := or_else (body_android body) empty_object |} in
        match published with
        | Rejected _ => handler_catch [SnsPublish snsMessage requestId]
        | Resolved snsResult =>
            let metrics :=
              [SnsPublish snsMessage requestId;
               RecordLatency "SNSPublishLatency";
               IncrementCounter "NotificationsRequested";
               RecordLatency "TotalRequestLatency"] in
            match partialToken (body_fcmToken body) with
            | Rejected _ => handler_catch metrics
            | Resolved shown =>
                mkHandling
                  (Responds
                     {| statusCode := 200;
                        response_body :=
                          {| resp_success := true;
                             resp_error := None;
                             resp_details := [];
                             resp_messageId := MessageId snsResult |} |})
                  (metrics ++ [LogPartialToken shown])
            end
        end
  end.

(** ** The token validator *)

(** The error [messaging.send] rejects with. *)
Record FirebaseError : Type := mkFirebaseError {
  fb_code : JsValue;
  fb_message : JsValue
}.

(** How [this.messaging.send(message, true)] settles. *)
Inductive DryRun : Type :=
| DryRunOk (messageId : string)
| DryRunFailed (e : FirebaseError).

(** The object [validateTokenConnectivity] resolves to; [valid: null] is
    [None], a missing property is [None] or [JUndefined]. *)
Record Connectivity : Type := mkConnectivity {
  conn_valid : option bool;
  conn_messageId : option string;
  conn_error : option string;
  conn_errorCode : JsValue
}.

(** What the validator does to the outside world. *)
Inductive ValidatorEvent : Type :=
| DryRunSent (token : string)
    (* [this.messaging.send(message, true)] for this token *)
| Waited (ms : Z).
    (* the wait between two batches *)

(** A run of the validator: how it settles and what it did, in order. *)
Record Validation (A : Type) : Type := mkValidation {
  settled : Completion A;
  dry_runs : list ValidatorEvent
}.
Arguments mkValidation {A} settled dry_runs.
Arguments settled {A} v.
Arguments dry_runs {A} v.

(** [validateTokenConnectivity(token)], for a validator with this
    [initialized] flag. *)
Definition validateTokenConnectivity (initialized : bool) (send : DryRun)
    (token : string) : Connectivity * list ValidatorEvent :=
  if negb initialized then
    ({| conn_valid := None;
        conn_messageId := None;
        conn_error :=
          Some "Firebase not initialized - connectivity test unavailable";
        conn_errorCode := JUndefined |}, [])
  else
    match send with
    | DryRunOk result =>
        ({| conn_valid := Some true;
            conn_messageId := Some result;
            conn_error := None;
            conn_errorCode := JUndefined |}, [DryRunSent token])
    | DryRunFailed e =>
        let errorCode := or_else (fb_code e) (JString "unknown") in
        let errorMessage := or_else (fb_message e) (JString "Unknown error") in
        ({| conn_valid := Some false;
            conn_messageId := None;
            conn_error :=
              Some (to_property_key errorCode ++ ": "
                    ++ to_property_key errorMessage)%string;
            conn_errorCode := errorCode |}, [DryRunSent token])
    end.

(** The object [validateToken] resolves to. *)
Record TokenResult : Type := mkTokenResult {
  shown_token : string;              (* the property called [token] *)
  formatValid : bool;
  connectivityValid : option bool;
  token_errors : list string;        (* the property called [errors] *)
  errorCode : JsValue;
  status : string
}.

(** [token.substring(0, 20) + '...'] *)
Definition shortToken (token : JsValue) : Completion string :=
  match token with
  | JString s => Resolved (substring s 0 20 ++ "...")%string
  | JUndefined =>
      Rejected (TypeError "Cannot read properties of undefined (reading 'substring')")
  | JNull =>
      Rejected (TypeError "Cannot read properties of null (reading 'substring')")
  | _ => Rejected (TypeError "token.substring is not a function")
  end.

(** [validateToken(token)] *)
Definition validateToken (initialized : bool) (send : DryRun) (token : JsValue)
  : Validation TokenResult :=
  let formatValidation := validateTokenFormat token in
  if negb (valid formatValidation) then
    mkValidation
      match shortToken token with
      | Resolved shown =>
          Resolved {| shown_token := shown;
                      formatValid := false;
                      connectivityValid := None;
                      token_errors := errors formatValidation;
                      errorCode := JUndefined;
                      status := "INVALID_FORMAT" |}
      | Rejected e => Rejected e
      end
      []
  else
    match token with
    | JString s =>
        let (connectivityValidation, calls) :=
          validateTokenConnectivity initialized send s in
        mkValidation
          (Resolved
             {| shown_token := (substring s 0 20 ++ "...")%string;
                formatValid := true;
                connectivityValid := conn_valid connectivityValidation;
                token_errors :=
                  match conn_error connectivityValidation with
                  | Some e => if non_empty e then [e] else []
                  | None => []
                  end;
                errorCode := conn_errorCode connectivityValidation;
                status :=
                  match conn_valid connectivityValidation with
                  | Some true => "VALID"
                  | Some false => "INVALID_TOKEN"
                  | None => "UNKNOWN"
                  end |})
          calls
    | _ =>
        (* a token of a valid format is a string *)
        mkValidation (Rejected (TypeError "token.substring is not a function")) []
    end.

Definition number_add (a b : JsNumber) : JsNumber :=
  match a, b with
  | Num x, Num y => Num (x + y)
  | _, _ => NaN
  end.

(** The integer an index argument stands for: [0] for [NaN]. *)
Definition to_integer (a : JsNumber) : Z :=
  match a with
  | Num x => x
  | NaN => 0
  end.

(** [{ batchSize = 10, delay = 100 } = options]: the default replaces a
    missing property only. *)
Record ValidateOptions : Type := mkValidateOptions {
  vo_batchSize : option JsNumber;
  vo_delay : option JsNumber
}.

Definition or_default (x : option JsNumber) (d : Z) : JsNumber :=
  match x with
  | Some v => v
  | None => Num d
  end.

(** How Firebase answers the dry run for the token at an input
    position. *)
Definition DryRuns : Type := nat -> DryRun.

(** [Promise.all] over the validations of a batch.  A validation is
    rejected only by [token.substring] on a token that is no string,
    which happens before the first [await]: the rejected promises are
    rejected when [Promise.all] receives them, and the one it reports is
    the first in the order of the batch.  The dry runs are issued as the
    validations are started, in the order of the batch. *)
Fixpoint validate_all (validations : list (Validation TokenResult))
  : Validation (list TokenResult) :=
  match validations with
  | [] => mkValidation (Resolved []) []
  | v :: rest =>
      let others := validate_all rest in
      mkValidation
        (match settled v, settled others with
         | Resolved a, Resolved l => Resolved (a :: l)
         | Rejected e, _ => Rejected e
         | Resolved _, Rejected e => Rejected e
         end)
        (dry_runs v ++ dry_runs others)
  end.

(** The loop of [validateTokens], entered with the current [i] and
    [results]. *)
Fixpoint validateTokens_loop (fuel : nat) (initialized : bool)
    (oracle : DryRuns) (tokens : list JsValue) (batchSize delay : JsNumber)
    (i : JsNumber) (results : list TokenResult)
  : option (Validation (list TokenResult)) :=
  match fuel with
  | O => None
  | S fuel' =>
      if number_lt i (Num (Z.of_nat (List.length tokens))) then
        let batch :=
          slice tokens (to_integer i) (to_integer (number_add i batchSize)) in
        let all :=
          validate_all
            (map_from (fun pos token => validateToken initialized (oracle pos) token)
               (slice_from tokens (to_integer i)) batch) in
        match settled all with
        | Resolved batchResults =>
            let pause :=
              if number_lt (number_add i batchSize)
                   (Num (Z.of_nat (List.length tokens)))
                 && number_lt (Num 0) delay
              then [Waited (to_integer delay)] else [] in
            option_map
              (fun later =>
                 mkValidation (settled later)
                   (dry_runs all ++ pause ++ dry_runs later))
              (validateTokens_loop fuel' initialized oracle tokens batchSize
                 delay (number_add i batchSize) (results ++ batchResults))
        | Rejected e => Some (mkValidation (Rejected e) (dry_runs all))
        end
      else Some (mkValidation (Resolved results) [])
  end.

(** [validateTokens(tokens, options)] *)
Definition validateTokens (fuel : nat) (initialized : bool) (oracle : DryRuns)
    (tokens : list JsValue) (options : ValidateOptions)
  : option (Validation (list TokenResult)) :=
  validateTokens_loop fuel initialized oracle tokens
    (or_default (vo_batchSize options) 10) (or_default (vo_delay options) 100)
    (Num 0) [].

(** The [summary] of [generateReport(results)]; [validPercentage] is a
    rounded floating point number and is not modelled. *)
Record ValidationSummary : Type := mkValidationSummary {
  vs_total : nat;
  vs_valid : nat;
  vs_invalid : nat;
  vs_invalidFormat : nat;
  vs_invalidToken : nat;
  vs_unknown : nat
}.

Definition count_status (name : string) (results : list TokenResult) : nat :=
  List.length (filter (fun r => String.eqb (status r) name) results).

Definition generateReport (results : list TokenResult) : ValidationSummary :=
  let total := List.length results in
  let valid := count_status "VALID" results in
  let invalidFormat := count_status "INVALID_FORMAT" results in
  let invalidToken := count_status "INVALID_TOKEN" results in
  let unknown := count_status "UNKNOWN" results in
  {| vs_total := total;
     vs_valid := valid;
     vs_invalid := (invalidFormat + invalidToken)%nat;
     vs_invalidFormat := invalidFormat;
     vs_invalidToken := invalidToken;
     vs_unknown := unknown |}.

(** [loadTokensFromFile(filePath)]: the tokens of a JSON array, of the
    [tokens] array of a JSON object, or else the non-empty trimmed lines
    of the content.  The error thrown for a JSON value without tokens is
    caught by the [catch] of the same [try], which reads the lines. *)
Definition loadTokensFromFile (filePath : string) (read : Loaded string)
    (JSON_parse : string -> ParsedJson JsValue) : Loaded (list JsValue) :=
  match read with
  | Thrown message =>
      Thrown ("Failed to load tokens from " ++ filePath ++ ": " ++ message)%string
  | Returned content =>
      match JSON_parse content with
      | JsonArray tokens => Returned tokens
      | JsonWithArray tokens => Returned tokens
      | JsonSyntaxError | JsonNull | JsonOther =>
          Returned
            (map JString
               (filter non_empty (map trim (split "010" content))))
      end
  end.

(** ** Observations on the rest *)




(** A value read from a CSV cell: a string, or [undefined] where the row
    has no such cell. *)
Definition csv_value (v : JsValue) : Prop := v = JUndefined \/ is_string v.

(** The non-blank lines of a file. *)
Definition non_blank_lines (content : string) : list string :=
  filter (fun line => non_empty (trim line)) (split "010" content).

(** The command line asks [main] to send the notifications of a file:
    neither [--help] nor [--generate], a [--file] followed by
    [filePath], and a topic ARN that is not empty, from [--topic-arn] or
    else from the environment. *)
Definition sends_file (args : CommandLine) (env_SNS_TOPIC_ARN : option string)
    (filePath : option string) (snsTopicArn : string) : Prop :=
  arg_help args = false
  /\ arg_generate args = None
  /\ arg_file args = Some filePath
  /\ match arg_topic_arn args with
     | Some arn => arn
     | None => env_SNS_TOPIC_ARN
     end = Some snsTopicArn
  /\ snsTopicArn <> "".


(** [results] holds, position by position, what the validation of each
    token of [tokens] resolved to; the first token is at input position
    [pos]. *)
Inductive validated_in_order (initialized : bool) (oracle : DryRuns)
  : nat -> list JsValue -> list TokenResult -> Prop :=
| validated_nil pos : validated_in_order initialized oracle pos [] []
| validated_cons pos token tokens r results :
    settled (validateToken initialized (oracle pos) token) = Resolved r ->
    validated_in_order initialized oracle (S pos) tokens results ->
    validated_in_order initialized oracle pos (token :: tokens) (r :: results).

(** A dry run is sent by an initialized validator for a token of valid
    format only; a wait lasts the positive [delay]. *)
Definition expected_event (initialized : bool) (delay : JsNumber)
    (event : ValidatorEvent) : Prop :=
  match event with
  | DryRunSent token =>
      initialized = true /\ valid (validateTokenFormat (JString token)) = true
  | Waited ms => delay = Num ms /\ 0 < ms
  end.

(** The statuses [validateToken] gives. *)
Definition known_status (name : string) : Prop :=
  name = "VALID" \/ name = "INVALID_FORMAT" \/ name = "INVALID_TOKEN"
  \/ name = "UNKNOWN".

(** The last character of a non-empty string. *)
Fixpoint last_char (s : string) : option ascii :=
  match s with
  | EmptyString => None
  | String c EmptyString => Some c
  | String _ rest => last_char rest
  end.

(** The first character of a non-empty string. *)
Definition first_char (s : string) : option ascii :=
  match s with
  | EmptyString => None
  | String c _ => Some c
  end.

(** A token as read from a line of a text file: not empty, without white
    space at either end and without a line feed. *)
Definition clean_token (s : string) : Prop :=
  s <> ""
  /\ (forall c, first_char s = Some c -> white_space c = false)
  /\ (forall c, last_char s = Some c -> white_space c = false)
  /\ ~ In "010"%char (list_ascii_of_string s).

(** ** More sample inputs *)

Definition sample_arn : string := "arn:aws:sns:us-east-1:123456789012:push".


(** The same with [--output <output>]. *)
Definition send_file_to (path output : string) : CommandLine :=
  {| arg_help := false;
     arg_generate := None;
     arg_file := Some (Some path);
     arg_batch_size := None;
     arg_delay := None;
     arg_max_retries := None;
     arg_output := Some (Some output);
     arg_topic_arn := Some (Some sample_arn) |}.

(** The same as [send_file] with [--batch-size <size>]. *)
Definition send_file_in_batches (path : string) (size : Z) : CommandLine :=
  {| arg_help := false;
     arg_generate := None;
     arg_file := Some (Some path);
     arg_batch_size := Some (Num size);
     arg_delay := None;
     arg_max_retries := None;
     arg_output := None;
     arg_topic_arn := Some (Some sample_arn) |}.

Definition accepted_response : Completion PublishResponse :=
  Resolved {| MessageId := JString "msg-1" |}.

(** [{ fcmToken: 'dGVzdC10b2tlbi0wMDE6QVBBOTFi', title: 'Hi',
    message: 'Hello' }] *)
Definition sample_body : RequestBody :=
  mkRequestBody (JString sample_token) (JString "Hi") (JString "Hello")
    JUndefined JUndefined.

(** * Properties *)

(** ** One send *)

Section SingleSend.

Variable this : BatchNotificationSender.
Variable publish : Z -> Completion PublishResponse.
Variable notification : Notification.

(** A send is a row of attempts: a provider call each, a wait of
    [retryDelay] between two of them, and no more retries than the
    distance from [retryCount] to [maxRetries]. *)
Lemma send_trace retryCount :
  exists k,
    (k <= Z.to_nat (maxRetries this - retryCount))%nat /\
    trace (sendSingleNotification this publish notification retryCount)
    = attempts this notification retryCount k.
Proof.
  funelim (sendSingleNotification this publish notification retryCount).
  - exists 0%nat. split; [lia | reflexivity].
  - match goal with IH : exists _, _ |- _ => destruct IH as (k & Hk & Htrace) end.
    exists (S k). split; [lia |].
    unfold after. cbn. rewrite Htrace. reflexivity.
  - exists 0%nat. split; [lia | reflexivity].
Qed.

(** The defining equation, as the source reads. *)
Lemma send_unfold retryCount :
  sendSingleNotification this publish notification retryCount
  = match try_block (publish retryCount) notification with
    | Resolved r =>
        mkRun (Resolved r) [publish_call this notification retryCount]
    | Rejected e =>
        if Z_lt_dec retryCount (maxRetries this)
        then after [publish_call this notification retryCount;
                    Delay (retryDelay this)]
               (sendSingleNotification this publish notification
                  (retryCount + 1))
        else mkRun (failure_record e notification)
                   [publish_call this notification retryCount]
    end.
Proof.
  simp sendSingleNotification.
  destruct (try_block (publish retryCount) notification); cbn;
    [reflexivity |].
  destruct (Z_lt_dec retryCount (maxRetries this));
    simp sendSingleNotification; reflexivity.
Qed.

(** When every attempt is rejected by the provider, the send uses up
    its retries and ends in the failure record of the last error. *)
Lemma send_all_rejected retryCount :
  (forall k, retryCount <= k -> is_rejected (publish k)) ->
  trace (sendSingleNotification this publish notification retryCount)
  = attempts this notification retryCount
      (Z.to_nat (maxRetries this - retryCount))
  /\ exists e,
       publish (Z.max retryCount (maxRetries this)) = Rejected e
       /\ outcome (sendSingleNotification this publish notification retryCount)
          = failure_record e notification.
Proof.
  funelim (sendSingleNotification this publish notification retryCount);
    intros Hfail.
  - destruct (Hfail retryCount ltac:(lia)) as [e He].
    rewrite He in *. discriminate.
  - match goal with
    | IH : _ -> _ /\ _ |- _ =>
        destruct IH as (Htrace & e' & He' & Hout);
          [intros k Hk; apply Hfail; lia |]
    end.
    split.
    + replace (Z.to_nat (maxRetries this - retryCount))
        with (S (Z.to_nat (maxRetries this - (retryCount + 1)))) by lia.
      unfold after. cbn. rewrite Htrace. reflexivity.
    + exists e'. split.
      * rewrite <- He'. f_equal. lia.
      * unfold after. cbn. exact Hout.
  - split.
    + replace (Z.to_nat (maxRetries this - retryCount)) with 0%nat by lia.
      reflexivity.
    + destruct (Hfail retryCount ltac:(lia)) as [e' He'].
      exists e'. split.
      * rewrite <- He'. f_equal. lia.
      * rewrite He' in *.
        match goal with H : try_block _ _ = _ |- _ => cbn in H; inversion H end.
        reflexivity.
Qed.

(** Induction along the attempts of a send. *)
Lemma send_ind (P : Z -> Run Event SendResult -> Prop) :
  (forall retryCount r,
      try_block (publish retryCount) notification = Resolved r ->
      P retryCount
        (mkRun (Resolved r) [publish_call this notification retryCount])) ->
  (forall retryCount e,
      try_block (publish retryCount) notification = Rejected e ->
      retryCount < maxRetries this ->
      P (retryCount + 1)
        (sendSingleNotification this publish notification (retryCount + 1)) ->
      P retryCount
        (after [publish_call this notification retryCount;
                Delay (retryDelay this)]
           (sendSingleNotification this publish notification
              (retryCount + 1)))) ->
  (forall retryCount e,
      try_block (publish retryCount) notification = Rejected e ->
      maxRetries this <= retryCount ->
      P retryCount
        (mkRun (failure_record e notification)
               [publish_call this notification retryCount])) ->
  forall retryCount,
    P retryCount
      (sendSingleNotification this publish notification retryCount).
Proof.
  intros Hok Hretry Hlast retryCount.
  remember (Z.to_nat (maxRetries this - retryCount)) as distance eqn:Hd.
  revert retryCount Hd.
  induction distance as [| distance IH]; intros retryCount Hd;
    rewrite send_unfold;
    destruct (try_block (publish retryCount) notification) eqn:Htry;
    try (apply Hok; exact Htry);
    destruct (Z_lt_dec retryCount (maxRetries this)) as [Hlt | Hge];
    try lia.
  - apply (Hlast _ _ Htry). lia.
  - apply (Hretry _ _ Htry Hlt). apply IH. lia.
Qed.

(** What the [try] block yields depends on the notification through
    its shown token only. *)
Lemma try_block_string published t :
  fcmToken notification = JString t ->
  try_block published notification
  = match published with
    | Resolved result =>
        Resolved {| success := JBool true;
                    messageId := MessageId result;
                    error := JUndefined;
                    res_fcmToken := JString (substring t 0 10 ++ "...")%string |}
    | Rejected e => Rejected e
    end.
Proof.
  intros Ht. unfold try_block. rewrite Ht. reflexivity.
Qed.

Lemma failure_record_string e t :
  fcmToken notification = JString t ->
  failure_record e notification
  = Resolved {| success := JBool false;
                messageId := JUndefined;
                error := JString (message e);
                res_fcmToken := JString (substring t 0 10 ++ "...")%string |}.
Proof.
  intros Ht. unfold failure_record. rewrite Ht. reflexivity.
Qed.

(** A send for a string token always resolves, and shows the first ten
    characters of the token only. *)
Lemma send_string_token retryCount t :
  fcmToken notification = JString t ->
  exists r,
    outcome (sendSingleNotification this publish notification retryCount)
    = Resolved r
    /\ res_fcmToken r = JString (substring t 0 10 ++ "...")%string.
Proof.
  intros Ht. revert retryCount.
  apply (send_ind (fun _ run => exists r, outcome run = Resolved r /\ _)).
  - intros retryCount r Htry. exists r. split; [reflexivity |].
    rewrite (try_block_string _ _ Ht) in Htry.
    destruct (publish retryCount); inversion Htry. reflexivity.
  - intros retryCount e _ _ IH. exact IH.
  - intros retryCount e _ _. rewrite (failure_record_string _ _ Ht).
    eexists. split; reflexivity.
Qed.

(** A send for a token that is no string is rejected: the [catch]
    block itself raises the [TypeError]. *)
Lemma send_non_string_token retryCount e :
  partialToken (fcmToken notification) = Rejected e ->
  outcome (sendSingleNotification this publish notification retryCount)
  = Rejected e.
Proof.
  intros Ht. revert retryCount.
  apply (send_ind (fun _ run => outcome run = Rejected e)).
  - intros retryCount r Htry. unfold try_block in Htry. rewrite Ht in Htry.
    destruct (publish retryCount); discriminate Htry.
  - intros retryCount e' _ _ IH. exact IH.
  - intros retryCount e' _ _. cbn. unfold failure_record. rewrite Ht.
    reflexivity.
Qed.

End SingleSend.

(** ** Counting on traces *)

Section Attempts.

Variable this : BatchNotificationSender.
Variable notification : Notification.

Lemma provider_calls_attempts retryCount k :
  provider_calls (attempts this notification retryCount k) = S k.
Proof.
  revert retryCount. induction k as [| k IH]; intros retryCount.
  - reflexivity.
  - specialize (IH (retryCount + 1)). unfold provider_calls in *.
    cbn. rewrite IH. reflexivity.
Qed.

Lemma delays_of_attempts retryCount k :
  delays_of (attempts this notification retryCount k)
  = repeat (retryDelay this) k.
Proof.
  revert retryCount. induction k as [| k IH]; intros retryCount; cbn.
  - reflexivity.
  - rewrite IH. reflexivity.
Qed.

Lemma publish_call_inj j k :
  publish_call this notification j = publish_call this notification k ->
  j = k.
Proof.
  unfold publish_call. intros H. injection H as H. exact H.
Qed.

(** The provider calls of a row of attempts are those numbered
    [retryCount] to [retryCount + k]. *)
Lemma In_attempts retryCount k j :
  In (publish_call this notification j)
     (attempts this notification retryCount k)
  <-> retryCount <= j <= retryCount + Z.of_nat k.
Proof.
  revert retryCount. induction k as [| k IH]; intros retryCount.
  - cbn. split.
    + intros [H | []]. apply publish_call_inj in H. lia.
    + intros H. left. f_equal. lia.
  - cbn [attempts In]. rewrite IH. split.
    + intros [H | [H | H]].
      * apply publish_call_inj in H. lia.
      * discriminate H.
      * lia.
    + intros H. destruct (Z.eq_dec retryCount j) as [-> | Hne].
      * left. reflexivity.
      * right. right. lia.
Qed.

End Attempts.

Lemma batches_of_app (r1 r2 : list Round) :
  batches_of (r1 ++ r2) = batches_of r1 ++ batches_of r2.
Proof.
  induction r1 as [| [batch sends | ms] r1 IH]; cbn; rewrite ?IH;
    reflexivity.
Qed.

Lemma provider_calls_app (e1 e2 : list Event) :
  provider_calls (e1 ++ e2) = (provider_calls e1 + provider_calls e2)%nat.
Proof.
  unfold provider_calls. rewrite filter_app, length_app. reflexivity.
Qed.

(** The outcome of a send depends on the notification through the shown
    token only. *)
Lemma send_outcome_token this publish n1 n2 retryCount :
  partialToken (fcmToken n1) = partialToken (fcmToken n2) ->
  outcome (sendSingleNotification this publish n1 retryCount)
  = outcome (sendSingleNotification this publish n2 retryCount).
Proof.
  intros Htoken. revert retryCount.
  apply (send_ind this publish n1
           (fun retryCount run =>
              outcome run
              = outcome (sendSingleNotification this publish n2 retryCount)));
    intros retryCount r Htry; [| intros Hlt IH | intros Hge];
    rewrite (send_unfold this publish n2);
    (replace (try_block (publish retryCount) n2)
       with (try_block (publish retryCount) n1)
      by (unfold try_block; rewrite Htoken; reflexivity));
    rewrite Htry.
  - reflexivity.
  - destruct (Z_lt_dec retryCount (maxRetries this)); [| lia].
    cbn. exact IH.
  - destruct (Z_lt_dec retryCount (maxRetries this)); [lia |].
    cbn. unfold failure_record. rewrite Htoken. reflexivity.
Qed.

(** A failed attempt below [maxRetries] is followed by a further
    provider call, whatever the error was. *)
Lemma failed_attempt_is_retried this publish notification retryCount k :
  retryCount <= k ->
  In (publish_call this notification k)
     (trace (sendSingleNotification this publish notification retryCount)) ->
  is_rejected (publish k) ->
  k < maxRetries this ->
  In (publish_call this notification (k + 1))
     (trace (sendSingleNotification this publish notification retryCount)).
Proof.
  intros Hle Hin [e He] Hlt. revert retryCount Hle Hin.
  apply (send_ind this publish notification
           (fun retryCount run =>
              retryCount <= k ->
              In (publish_call this notification k) (trace run) ->
              In (publish_call this notification (k + 1)) (trace run))).
  - intros retryCount r Htry _ [H | []].
    apply publish_call_inj in H. subst k.
    rewrite He in Htry. discriminate Htry.
  - intros retryCount e' _ _ IH Hle Hin.
    unfold after. cbn [trace app]. right. right.
    destruct (Z.eq_dec retryCount k) as [-> | Hne].
    + destruct (send_trace this publish notification (k + 1)) as (m & _ & ->).
      apply In_attempts. lia.
    + apply IH; [lia |].
      cbn in Hin. destruct Hin as [H | [H | H]].
      * apply publish_call_inj in H. lia.
      * discriminate H.
      * exact H.
  - intros retryCount e' _ Hge _ [H | []].
    apply publish_call_inj in H. lia.
Qed.

(** ** Consecutive chunks *)

Section Chunks.

Context {A : Type}.
Implicit Types (l : list A) (N : nat).

Lemma chunks_step N l :
  (0 < N)%nat -> l <> [] ->
  chunks N l = firstn N l :: chunks N (skipn N l).
Proof.
  intros HN Hl. destruct N as [| n]; [lia |].
  destruct l as [| a l]; [congruence |].
  simp chunks. reflexivity.
Qed.

Lemma concat_chunks N l : (0 < N)%nat -> List.concat (chunks N l) = l.
Proof.
  intros HN. funelim (chunks N l); simp chunks.
  - lia.
  - reflexivity.
  - cbn. rewrite H by lia. f_equal. apply firstn_skipn.
Qed.

Lemma exact_except_last_chunks N l : exact_except_last N (chunks N l).
Proof.
  funelim (chunks N l); simp chunks; cbn [exact_except_last].
  - exact I.
  - exact I.
  - destruct (chunks (S n) (skipn n l)) as [| b rest] eqn:Hrest.
    + cbn. rewrite length_firstn. lia.
    + split; [| exact H].
      cbn. rewrite length_firstn. f_equal. apply Nat.min_l.
      destruct (Nat.le_gt_cases n (List.length l)) as [Hle | Hgt];
        [exact Hle |].
      rewrite skipn_all2 in Hrest by lia. simp chunks in Hrest.
      discriminate Hrest.
Qed.

(** A prefix of a plan is exact except for its last batch as well. *)
Lemma exact_except_last_firstn N k (batches : list (list A)) :
  (0 < N)%nat ->
  exact_except_last N batches -> exact_except_last N (firstn k batches).
Proof.
  intros HN. revert k.
  induction batches as [| b rest IH]; intros k Hexact.
  - rewrite firstn_nil. exact I.
  - destruct k as [| k]; [exact I |].
    cbn [firstn]. cbn [exact_except_last] in Hexact.
    destruct rest as [| b' rest'].
    + rewrite firstn_nil. exact Hexact.
    + destruct Hexact as [Hb Hrest]. specialize (IH k Hrest).
      destruct k as [| k].
      * cbn. lia.
      * cbn [firstn exact_except_last] in *. split; [exact Hb | exact IH].
Qed.

Lemma exact_except_last_bound N (batches : list (list A)) :
  (0 < N)%nat ->
  exact_except_last N batches ->
  Forall (fun b => (0 < List.length b <= N)%nat) batches.
Proof.
  intros HN.
  induction batches as [| b rest IH]; intros Hexact; constructor.
  - cbn in Hexact. destruct rest; lia.
  - apply IH. cbn in Hexact. destruct rest; [exact I | apply Hexact].
Qed.

Lemma sizes_sum (batches : list (list A)) :
  list_sum (sizes batches) = List.length (List.concat batches).
Proof.
  induction batches as [| b rest IH]; cbn.
  - reflexivity.
  - rewrite length_app, <- IH. reflexivity.
Qed.

Lemma concat_firstn_skipn k (batches : list (list A)) :
  List.concat (firstn k batches) ++ List.concat (skipn k batches) = List.concat batches.
Proof.
  rewrite <- List.concat_app, firstn_skipn. reflexivity.
Qed.

End Chunks.

(** ** Slices *)

Lemma slice_consecutive {A} (l : list A) (i N : Z) :
  0 <= i < Z.of_nat (List.length l) -> 0 < N ->
  slice l i (i + N) = firstn (Z.to_nat N) (skipn (Z.to_nat i) l)
  /\ slice_from l i = Z.to_nat i.
Proof.
  intros Hi HN. unfold slice, slice_from, slice_to, relative_index.
  destruct (Z.ltb_spec i 0) as [? | _]; [lia |].
  destruct (Z.ltb_spec (i + N) 0) as [? | _]; [lia |].
  split; [| f_equal; lia].
  replace (Z.to_nat (Z.min i (Z.of_nat (List.length l)))) with (Z.to_nat i)
    by lia.
  destruct (Z.le_gt_cases (i + N) (Z.of_nat (List.length l))) as [Hle | Hgt].
  - f_equal. lia.
  - rewrite !firstn_all2; [reflexivity | |]; rewrite length_skipn; lia.
Qed.

(** With a negative step the loop index is negative from the second
    round on, and every slice taken there is empty. *)
Lemma slice_negative_empty {A} (l : list A) (i N : Z) :
  i < 0 -> N < 0 -> slice l i (i + N) = [].
Proof.
  intros Hi HN. unfold slice, slice_from, slice_to, relative_index.
  destruct (Z.ltb_spec i 0) as [_ | ?]; [| lia].
  destruct (Z.ltb_spec (i + N) 0) as [_ | ?]; [| lia].
  replace (Z.to_nat (Z.max (Z.of_nat (List.length l) + (i + N)) 0)
           - Z.to_nat (Z.max (Z.of_nat (List.length l) + i) 0))%nat
    with 0%nat by lia.
  reflexivity.
Qed.

(** ** One batch *)

Section PromiseAll.

Context {A : Type}.
Variable settles : Schedule.
Implicit Types (promises : list (Completion A)) (values : list A).

Lemma resolved_values_map values :
  resolved_values (map Resolved values) = values.
Proof.
  induction values as [| a values IH]; cbn; [| rewrite IH]; reflexivity.
Qed.

Lemma first_rejection_None pos promises :
  first_rejection settles pos promises = None
  <-> promises = map Resolved (resolved_values promises).
Proof.
  revert pos. induction promises as [| [a | e] promises IH]; intros pos;
    cbn [first_rejection resolved_values map].
  - tauto.
  - rewrite IH. split; intros H.
    + rewrite <- H. reflexivity.
    + injection H as H. exact H.
  - split.
    + destruct (first_rejection settles (S pos) promises) as [[time e'] |];
        [destruct (time <? settles pos)%nat |]; discriminate.
    + destruct (resolved_values promises); discriminate.
Qed.

(** The rejection that [Promise.all] reports is that of one of its
    promises. *)
Lemma first_rejection_Some pos promises time e :
  first_rejection settles pos promises = Some (time, e) ->
  In (Rejected e) promises.
Proof.
  revert pos time e.
  induction promises as [| [a | e0] promises IH]; intros pos time e;
    cbn [first_rejection In].
  - discriminate.
  - intros H. right. exact (IH _ _ _ H).
  - destruct (first_rejection settles (S pos) promises) as [[time' e'] |]
      eqn:Hrest.
    + destruct (time' <? settles pos)%nat; intros H; injection H as <- <-.
      * right. exact (IH _ _ _ Hrest).
      * left. reflexivity.
    + intros H. injection H as <- <-. left. reflexivity.
Qed.

Lemma Promise_all_Resolved pos promises values :
  Promise_all settles pos promises = Resolved values
  <-> promises = map Resolved values.
Proof.
  unfold Promise_all. split.
  - destruct (first_rejection settles pos promises) as [[time e] |] eqn:Hfirst;
      [discriminate |].
    intros H. injection H as <-. apply first_rejection_None in Hfirst.
    exact Hfirst.
  - intros ->.
    destruct (first_rejection settles pos (map Resolved values))
      as [[time e] |] eqn:Hfirst.
    + apply first_rejection_Some in Hfirst. apply in_map_iff in Hfirst.
      destruct Hfirst as (a & Ha & _). discriminate Ha.
    + rewrite resolved_values_map. reflexivity.
Qed.

Lemma Promise_all_Rejected pos promises e :
  Promise_all settles pos promises = Rejected e -> In (Rejected e) promises.
Proof.
  unfold Promise_all.
  destruct (first_rejection settles pos promises) as [[time e'] |] eqn:Hfirst;
    [| discriminate].
  intros H. injection H as <-. apply (first_rejection_Some _ _ _ _ Hfirst).
Qed.

End PromiseAll.

Lemma map_from_app {A B} (f : nat -> A -> B) pos (l1 l2 : list A) :
  map_from f pos (l1 ++ l2)
  = map_from f pos l1 ++ map_from f (pos + List.length l1) l2.
Proof.
  revert pos. induction l1 as [| a l1 IH]; intros pos; cbn.
  - rewrite Nat.add_0_r. reflexivity.
  - rewrite IH. replace (S pos + List.length l1)%nat
      with (pos + S (List.length l1))%nat by lia. reflexivity.
Qed.

Lemma map_map_from {A B C} (g : B -> C) (f : nat -> A -> B) pos (l : list A) :
  map g (map_from f pos l) = map_from (fun p a => g (f p a)) pos l.
Proof.
  revert pos. induction l as [| a l IH]; intros pos; cbn;
    [| rewrite IH]; reflexivity.
Qed.



Section Batch.

Variable this : BatchNotificationSender.
Variable oracle : Oracle.

(** The outcomes of the sends of a batch, when all of them resolve. *)
Lemma outcomes_resolved pos batch results :
  map outcome (map_from (send_at this oracle) pos batch) = map Resolved results
  <-> sent_in_order this oracle pos batch results.
Proof.
  split.
  - revert pos results.
    induction batch as [| n batch IH]; intros pos [| r results] H;
      try discriminate H.
    + constructor.
    + cbn in H. injection H as Hn Hrest.
      constructor; [exact Hn | apply IH; exact Hrest].
  - induction 1 as [pos | pos n ns r rs Hout _ IH]; cbn.
    + reflexivity.
    + rewrite Hout, IH. reflexivity.
Qed.

(** When the sends of a batch all resolve, [Promise.all] yields their
    results in the order of the batch. *)
Lemma Promise_all_resolved settles pos batch results :
  Promise_all settles pos (map outcome (map_from (send_at this oracle) pos batch))
  = Resolved results ->
  sent_in_order this oracle pos batch results.
Proof.
  intros H. apply Promise_all_Resolved in H.
  apply outcomes_resolved. exact H.
Qed.

(** The sends of a batch of string tokens all resolve. *)
Lemma sends_of_strings pos batch :
  Forall (fun n => is_string (fcmToken n)) batch ->
  exists results, sent_in_order this oracle pos batch results.
Proof.
  revert pos. induction batch as [| n batch IH]; intros pos Hall.
  - exists []. constructor.
  - inversion Hall as [| ? ? [t Ht] Hrest]; subst.
    destruct (send_string_token this (oracle pos) n 0 t Ht)
      as (r & Hout & _).
    destruct (IH (S pos) Hrest) as (rs & Hrs).
    exists (r :: rs). constructor; assumption.
Qed.

Lemma Promise_all_strings settles pos batch :
  Forall (fun n => is_string (fcmToken n)) batch ->
  exists results,
    Promise_all settles pos
      (map outcome (map_from (send_at this oracle) pos batch))
    = Resolved results.
Proof.
  intros Hall. destruct (sends_of_strings pos batch Hall) as (results & Hsent).
  exists results. apply Promise_all_Resolved, outcomes_resolved. exact Hsent.
Qed.

Lemma sent_in_order_app pos l1 l2 r1 r2 :
  sent_in_order this oracle pos l1 r1 ->
  sent_in_order this oracle (pos + List.length l1) l2 r2 ->
  sent_in_order this oracle pos (l1 ++ l2) (r1 ++ r2).
Proof.
  intros H1. induction H1 as [pos | pos n ns r rs Hout _ IH]; cbn; intros H2.
  - rewrite Nat.add_0_r in H2. exact H2.
  - constructor; [exact Hout |]. apply IH.
    replace (S pos + List.length ns)%nat
      with (pos + S (List.length ns))%nat by lia.
    exact H2.
Qed.

Lemma sent_in_order_length pos l results :
  sent_in_order this oracle pos l results ->
  List.length results = List.length l.
Proof.
  induction 1; cbn; congruence.
Qed.

(** One entry per notification, at the position of the notification. *)
Lemma sent_in_order_nth pos l results k notification :
  sent_in_order this oracle pos l results ->
  nth_error l k = Some notification ->
  exists r,
    nth_error results k = Some r
    /\ outcome (send_at this oracle (pos + k) notification) = Resolved r.
Proof.
  intros H. revert k.
  induction H as [pos | pos n ns r rs Hout _ IH]; intros k Hk.
  - destruct k; discriminate Hk.
  - destruct k as [| k]; cbn in Hk.
    + injection Hk as <-. exists r. rewrite Nat.add_0_r.
      split; [reflexivity | exact Hout].
    + destruct (IH k Hk) as (r' & Hr' & Hout').
      exists r'. split; [exact Hr' |].
      replace (pos + S k)%nat with (S pos + k)%nat by lia. exact Hout'.
Qed.

End Batch.

(** ** The loop of [sendBatch] *)

Lemma Forall_skipn {A} (P : A -> Prop) n (l : list A) :
  Forall P l -> Forall P (skipn n l).
Proof.
  intros H. rewrite <- (firstn_skipn n l) in H.
  apply Forall_app in H. apply H.
Qed.

Lemma Forall_firstn {A} (P : A -> Prop) n (l : list A) :
  Forall P l -> Forall P (firstn n l).
Proof.
  intros H. rewrite <- (firstn_skipn n l) in H.
  apply Forall_app in H. apply H.
Qed.

Lemma chunks_nil {A} N : chunks N (@nil A) = [].
Proof.
  destruct N; simp chunks; reflexivity.
Qed.

Section Loop.

Variable this : BatchNotificationSender.
Variable oracle : Oracle.
Variable settles : Schedule.
Variable notifications : list Notification.

Hypothesis positive_batchSize : 0 < batchSize this.

(** One round of the loop, for an index inside the input. *)
Lemma sendBatch_loop_step fuel i results :
  0 <= i < Z.of_nat (List.length notifications) ->
  sendBatch_loop (S fuel) this oracle settles notifications i results
  = let batch :=
      firstn (Z.to_nat (batchSize this)) (skipn (Z.to_nat i) notifications) in
    let batchPromises := map_from (send_at this oracle) (Z.to_nat i) batch in
    let round := ProcessingBatch batch (map trace batchPromises) in
    match Promise_all settles (Z.to_nat i) (map outcome batchPromises) with
    | Resolved batchResults =>
        option_map
          (after (round
                  :: (if i + batchSize this
                         <? Z.of_nat (List.length notifications)
                      then [Pause (delayBetweenBatches this)] else [])))
          (sendBatch_loop fuel this oracle settles notifications
             (i + batchSize this) (results ++ batchResults))
    | Rejected e => Some (mkRun (Rejected e) [round])
    end.
Proof.
  intros Hi. cbn [sendBatch_loop].
  destruct (Z.ltb_spec i (Z.of_nat (List.length notifications))); [| lia].
  destruct (slice_consecutive notifications i (batchSize this))
    as [-> ->]; [lia | exact positive_batchSize |].
  reflexivity.
Qed.

(** Entered at [i >= 0] with enough fuel, the loop ends.  The slices it
    took are the first chunks of the rest of the input, and all of them
    unless a send was rejected; the results it adds are those of the
    rest of the input, in order, its sends those of the rest of the
    input, and it pauses once between two batches. *)
Lemma sendBatch_loop_spec fuel i results :
  0 <= i ->
  (Z.to_nat (Z.of_nat (List.length notifications) - i) < fuel)%nat ->
  exists run,
    sendBatch_loop fuel this oracle settles notifications i results = Some run
    /\ (exists k,
           batches_of (trace run)
           = firstn k (chunks (Z.to_nat (batchSize this))
                         (skipn (Z.to_nat i) notifications)))
    /\ (forall results',
           outcome run = Resolved results' ->
           batches_of (trace run)
           = chunks (Z.to_nat (batchSize this))
               (skipn (Z.to_nat i) notifications)
           /\ (exists sent,
                  results' = results ++ sent
                  /\ sent_in_order this oracle (Z.to_nat i)
                       (skipn (Z.to_nat i) notifications) sent)
           /\ sends_of (trace run)
              = map_from (fun pos n => trace (send_at this oracle pos n))
                  (Z.to_nat i) (skipn (Z.to_nat i) notifications)
           /\ pauses_of (trace run)
              = repeat (delayBetweenBatches this)
                  (List.length
                     (chunks (Z.to_nat (batchSize this))
                        (skipn (Z.to_nat i) notifications)) - 1))
    /\ (Forall (fun n => is_string (fcmToken n)) notifications ->
        exists results', outcome run = Resolved results').
Proof.
  revert i results.
  induction fuel as [| fuel IH]; intros i results Hi Hfuel; [lia |].
  destruct (Z.lt_ge_cases i (Z.of_nat (List.length notifications)))
    as [Hlt | Hge].
  - rewrite sendBatch_loop_step by lia. cbn zeta.
    set (N := Z.to_nat (batchSize this)).
    set (rest := skipn (Z.to_nat i) notifications).
    assert (Hrest : rest <> []).
    { intros Hnil. apply (f_equal (@List.length _)) in Hnil.
      unfold rest in Hnil. rewrite length_skipn in Hnil. cbn in Hnil. lia. }
    assert (Hnext : skipn (Z.to_nat (i + batchSize this)) notifications
                    = skipn N rest).
    { unfold rest, N. rewrite skipn_skipn. f_equal. lia. }
    assert (Hchunks : chunks N rest
                      = firstn N rest
                        :: chunks N (skipn (Z.to_nat (i + batchSize this))
                                       notifications)).
    { rewrite Hnext. apply chunks_step; [unfold N; lia | exact Hrest]. }
    destruct (Promise_all settles (Z.to_nat i)
                (map outcome
                   (map_from (send_at this oracle) (Z.to_nat i)
                      (firstn N rest))))
      as [batchResults | e] eqn:Hall.
    + destruct (IH (i + batchSize this) (results ++ batchResults))
        as (run & Hrun & (k & Hk) & Hres & Hstr); [lia | lia |].
      rewrite Hrun. cbn [option_map].
      eexists. split; [reflexivity |].
      assert (Hbatches :
                batches_of
                  (trace
                     (after
                        (ProcessingBatch (firstn N rest)
                           (map trace
                              (map_from (send_at this oracle) (Z.to_nat i)
                                 (firstn N rest)))
                         :: (if i + batchSize this
                                <? Z.of_nat (List.length notifications)
                             then [Pause (delayBetweenBatches this)] else []))
                        run))
                = firstn N rest :: batches_of (trace run)).
      { unfold after. cbn [trace]. destruct (_ <? _); reflexivity. }
      rewrite Hbatches.
      split; [| split].
      * exists (S k). rewrite Hchunks, Hk. reflexivity.
      * intros results' Hout.
        destruct (Hres results' Hout)
          as (Hb & (sent & -> & Hsent) & Hsends & Hpauses).
        split; [rewrite Hchunks, Hb; reflexivity |].
        assert (Hsplit : rest = firstn N rest ++ skipn N rest)
          by (symmetry; apply firstn_skipn).
        assert (Hpos : skipn N rest <> [] ->
                       (Z.to_nat i + List.length (firstn N rest))%nat
                       = Z.to_nat (i + batchSize this)).
        { intros Hmore. rewrite length_firstn.
          destruct (Nat.le_gt_cases N (List.length rest)) as [Hle | Hgt].
          - rewrite Nat.min_l by exact Hle. unfold N. lia.
          - exfalso. apply Hmore. apply skipn_all2. lia. }
        split; [| split].
        -- exists (batchResults ++ sent).
           split; [symmetry; apply app_assoc |].
           rewrite Hsplit. apply sent_in_order_app.
           ++ apply (Promise_all_resolved this oracle settles). exact Hall.
           ++ rewrite Hnext in Hsent.
              destruct (skipn N rest) as [| n' rest'] eqn:Hmore.
              ** inversion Hsent; subst. constructor.
              ** rewrite Hpos by discriminate. exact Hsent.
        -- unfold after. cbn [trace].
           assert (Hlater :
                     sends_of (trace run)
                     = map_from (fun pos n => trace (send_at this oracle pos n))
                         (Z.to_nat i + List.length (firstn N rest))
                         (skipn N rest)).
           { rewrite Hsends, Hnext.
             destruct (skipn N rest) as [| n' rest'] eqn:Hmore;
               [reflexivity |].
             rewrite Hpos by discriminate. reflexivity. }
           transitivity
             (map_from (fun pos n => trace (send_at this oracle pos n))
                (Z.to_nat i) (firstn N rest ++ skipn N rest));
             [| rewrite firstn_skipn; reflexivity].
           rewrite map_from_app, <- Hlater, map_map_from.
           destruct (i + batchSize this <? Z.of_nat (List.length notifications));
             reflexivity.
        -- unfold after. cbn [trace]. rewrite Hchunks.
           cbn [List.length Nat.sub]. rewrite Nat.sub_0_r.
           destruct (Z.ltb_spec (i + batchSize this)
                       (Z.of_nat (List.length notifications)))
             as [Hmore | Hlast]; cbn [app pauses_of]; rewrite Hpauses; fold N.
           ++ rewrite Hnext. rewrite (chunks_step N (skipn N rest)).
              ** cbn [List.length Nat.sub repeat]. rewrite Nat.sub_0_r.
                 reflexivity.
              ** unfold N; lia.
              ** intros Hnil. apply (f_equal (@List.length _)) in Hnil.
                 unfold rest in Hnil. rewrite !length_skipn in Hnil.
                 cbn in Hnil. unfold N in Hnil. lia.
           ++ rewrite skipn_all2 by lia. rewrite chunks_nil. reflexivity.
      * exact Hstr.
    + eexists. split; [reflexivity |]. cbn [trace batches_of outcome].
      split; [| split].
      * exists 1%nat. rewrite Hchunks. reflexivity.
      * intros results' Hout. discriminate Hout.
      * intros Hstrings.
        destruct (Promise_all_strings this oracle settles (Z.to_nat i)
                    (firstn N rest)) as (rs & Hrs).
        { apply Forall_firstn. unfold rest. apply Forall_skipn.
          exact Hstrings. }
        rewrite Hrs in Hall. discriminate Hall.
  - destruct fuel; cbn [sendBatch_loop];
      (destruct (Z.ltb_spec i (Z.of_nat (List.length notifications)));
       [lia |]);
      (eexists; split; [reflexivity |]); cbn [trace batches_of outcome];
      rewrite skipn_all2 by lia; rewrite chunks_nil;
      (split; [exists 0%nat; reflexivity | split]);
      try (intros _; eexists; reflexivity);
      intros results' Hout; injection Hout as <-;
      (split; [reflexivity | split; [| split; reflexivity]]);
      exists []; (split; [symmetry; apply app_nil_r | constructor]).
Qed.

End Loop.

(** ** Whole runs of [sendBatch] *)

Lemma Promise_all_single {A} settles pos (promise : Completion A) :
  Promise_all settles pos [promise]
  = match promise with
    | Resolved a => Resolved [a]
    | Rejected e => Rejected e
    end.
Proof.
  destruct promise; reflexivity.
Qed.

(** With a negative batch size the loop index only decreases: once it is
    negative every slice is empty and the loop never ends. *)
Lemma sendBatch_loop_negative this oracle settles notifications fuel i results :
  batchSize this < 0 -> i < 0 ->
  sendBatch_loop fuel this oracle settles notifications i results = None.
Proof.
  intros HN. revert i results.
  induction fuel as [| fuel IH]; intros i results Hi; [reflexivity |].
  cbn [sendBatch_loop].
  destruct (Z.ltb_spec i (Z.of_nat (List.length notifications))); [| lia].
  rewrite slice_negative_empty by assumption.
  cbn [map_from map]. unfold Promise_all.
  cbn [first_rejection resolved_values]. rewrite IH by lia. reflexivity.
Qed.

Lemma sendBatch_negative_diverges this oracle settles notifications fuel :
  batchSize this < 0 ->
  notifications <> [] ->
  Forall (fun n => is_string (fcmToken n)) notifications ->
  sendBatch fuel this oracle settles notifications = None.
Proof.
  intros HN Hne Hstrings. unfold sendBatch.
  destruct fuel as [| fuel]; [reflexivity |].
  cbn [sendBatch_loop].
  destruct (Z.ltb_spec 0 (Z.of_nat (List.length notifications)))
    as [_ | Hlen].
  - destruct (Promise_all_strings this oracle settles
                (slice_from notifications 0)
                (slice notifications 0 (0 + batchSize this)))
      as (rs & ->).
    + unfold slice. apply Forall_firstn, Forall_skipn. exact Hstrings.
    + rewrite sendBatch_loop_negative by lia. reflexivity.
  - destruct notifications; [congruence | cbn in Hlen; lia].
Qed.

(** With a positive batch size and string tokens the run resolves to one
    result per notification, in the order of the input. *)
Lemma sendBatch_complete this oracle settles notifications fuel :
  0 < batchSize this ->
  (List.length notifications < fuel)%nat ->
  Forall (fun n => is_string (fcmToken n)) notifications ->
  exists results rounds,
    sendBatch fuel this oracle settles notifications
    = Some (mkRun (Resolved results) rounds)
    /\ sent_in_order this oracle 0 notifications results.
Proof.
  intros HN Hfuel Hstrings.
  destruct (sendBatch_loop_spec this oracle settles notifications HN fuel 0 [])
    as (run & Hrun & _ & Hres & Hstr); [lia | lia |].
  destruct (Hstr Hstrings) as (results & Hout).
  destruct (Hres results Hout) as (_ & (sent & -> & Hsent) & _).
  exists sent, (trace run). split.
  - unfold sendBatch. rewrite Hrun. destruct run as [o t].
    cbn in Hout. subst o. reflexivity.
  - exact Hsent.
Qed.

(** Twenty-five notifications go out in batches of ten, ten and five. *)
Example batches_of_twenty_five :
  option_map (fun run => sizes (batches_of (trace run)))
    (sendBatch 4 default_sender (fun _ => accepted) in_order
       (repeat (titled (JString sample_token)) 25))
  = Some [10; 10; 5]%nat.
Proof. vm_compute. reflexivity. Qed.

(** One throttled notification among three: its record is the failure,
    in its place. *)
Example one_failure_among_three :
  option_map (fun run => outcome run)
    (sendBatch 2 default_sender
       (fun pos => if (pos =? 1)%nat then throttled else accepted) in_order
       [titled (JString "token-one-0001");
        titled (JString "token-two-0002");
        titled (JString "token-three-0003")])
  = Some (Resolved
            [mkSendResult (JBool true) (JString "msg-1") JUndefined
               (JString "token-one-...");
             mkSendResult (JBool false) JUndefined (JString "Rate exceeded")
               (JString "token-two-...");
             mkSendResult (JBool true) (JString "msg-1") JUndefined
               (JString "token-thre...")]).
Proof. vm_compute. reflexivity. Qed.

(** Which rejection [Promise.all] reports depends on the order in which
    the sends settle: of a token that is [null] and one that is a number,
    either [TypeError] may be the one. *)
Example rejection_depends_on_timing :
  option_map (fun run => outcome run)
    (sendBatch 2 default_sender (fun _ => throttled) (fun pos => pos)
       [titled JNull; titled (JNumber 12345)])
  = Some (Rejected
            (TypeError
               "Cannot read properties of null (reading 'substring')"))
  /\ option_map (fun run => outcome run)
       (sendBatch 2 default_sender (fun _ => throttled) (fun pos => (1 - pos)%nat)
          [titled JNull; titled (JNumber 12345)])
     = Some (Rejected
               (TypeError "notification.fcmToken.substring is not a function")).
Proof. split; vm_compute; reflexivity. Qed.

(** C1.  The delivery report is not complete on every input.  A
    notification whose [fcmToken] is the number [12345] passes
    [validateNotification], but its send raises a [TypeError] out of the
    [catch] block itself, so that [sendBatch] is rejected and returns no
    results at all, whatever the provider answers.  And with a batch size
    of [-1] the loop of [sendBatch] never ends: no amount of fuel yields a
    result. *)
Theorem sendBatch_report_incomplete :
  validateNotification (titled (JNumber 12345)) = []
  /\ (forall oracle settles fuel,
        exists rounds,
          sendBatch (S fuel) default_sender oracle settles
            [titled (JNumber 12345)]
          = Some (mkRun
                    (Rejected
                       (TypeError
                          "notification.fcmToken.substring is not a function"))
                    rounds))
  /\ (forall oracle settles fuel,
        sendBatch fuel (constructor None (with_batchSize (-1))) oracle settles
          [titled (JString sample_token)] = None).
Proof.
  split; [reflexivity | split].
  - intros oracle settles fuel. unfold sendBatch.
    rewrite sendBatch_loop_step by (cbn; lia). cbn zeta.
    change (firstn (Z.to_nat (batchSize default_sender))
              (skipn (Z.to_nat 0) [titled (JNumber 12345)]))
      with [titled (JNumber 12345)].
    cbn [map_from map]. rewrite Promise_all_single. unfold send_at.
    rewrite (send_non_string_token default_sender _ (titled (JNumber 12345)) 0
               (TypeError "notification.fcmToken.substring is not a function"))
      by reflexivity.
    eexists. reflexivity.
  - intros oracle settles fuel. apply sendBatch_negative_diverges.
    + reflexivity.
    + discriminate.
    + repeat constructor. exists sample_token. reflexivity.
Qed.

(** The batches of a run with a positive batch size.  The run ends; the
    slices it works on are consecutive slices of the input in input
    order, each of exactly [N] notifications except the last, which has
    between one and [N]; so every batch has at most [N] elements.  When
    the run resolves (as it does whenever the tokens are strings) the
    slices are all the chunks of the input: they concatenate to the input
    and their sizes sum to its length.  A run that is rejected stops at
    the batch of the rejected send; its slices are the chunks up to that
    batch. *)
Lemma sendBatch_batches this oracle settles notifications fuel :
  0 < batchSize this ->
  (List.length notifications < fuel)%nat ->
  exists run,
    sendBatch fuel this oracle settles notifications = Some run
    /\ (exists k,
           batches_of (trace run)
           = firstn k (chunks (Z.to_nat (batchSize this)) notifications))
    /\ exact_except_last (Z.to_nat (batchSize this)) (batches_of (trace run))
    /\ Forall (fun batch =>
                 (List.length batch <= Z.to_nat (batchSize this))%nat)
              (batches_of (trace run))
    /\ (exists unplanned,
           List.concat (batches_of (trace run)) ++ unplanned = notifications)
    /\ (forall results,
           outcome run = Resolved results ->
           batches_of (trace run)
           = chunks (Z.to_nat (batchSize this)) notifications
           /\ List.concat (batches_of (trace run)) = notifications
           /\ list_sum (sizes (batches_of (trace run)))
              = List.length notifications)
    /\ (Forall (fun n => is_string (fcmToken n)) notifications ->
        exists results, outcome run = Resolved results).
Proof.
  intros HN Hfuel.
  assert (HN' : (0 < Z.to_nat (batchSize this))%nat) by lia.
  destruct (sendBatch_loop_spec this oracle settles notifications HN fuel 0 [])
    as (run & Hrun & (k & Hk) & Hres & Hstr); [lia | lia |].
  change (skipn (Z.to_nat 0) notifications) with notifications in *.
  exists run. split; [exact Hrun |].
  assert (Hexact : exact_except_last (Z.to_nat (batchSize this))
                     (batches_of (trace run))).
  { rewrite Hk. apply exact_except_last_firstn; [exact HN' |].
    apply exact_except_last_chunks. }
  split; [| split; [| split; [| split; [| split]]]].
  - exists k. exact Hk.
  - exact Hexact.
  - apply exact_except_last_bound in Hexact; [| exact HN'].
    eapply Forall_impl; [| exact Hexact]. cbn. intros b Hb. lia.
  - exists (List.concat
              (skipn k (chunks (Z.to_nat (batchSize this)) notifications))).
    rewrite Hk, concat_firstn_skipn. apply concat_chunks. exact HN'.
  - intros results Hout. destruct (Hres results Hout) as [Hall _].
    rewrite Hall, sizes_sum, concat_chunks by exact HN'.
    split; [reflexivity | split; reflexivity].
  - exact Hstr.
Qed.

Lemma sendBatch_batches_witness :
  0 < batchSize (constructor None (with_batchSize 2))
  /\ (List.length [titled (JString "a"); titled (JString "b");
                   titled (JString "c")] < 4)%nat
  /\ exists run,
       sendBatch 4 (constructor None (with_batchSize 2)) (fun _ => accepted)
         in_order
         [titled (JString "a"); titled (JString "b"); titled (JString "c")]
       = Some run
       /\ exact_except_last 2 (batches_of (trace run)).
Proof.
  split; [reflexivity | split; [cbn; lia |]].
  destruct (sendBatch_batches (constructor None (with_batchSize 2))
              (fun _ => accepted) in_order
              [titled (JString "a"); titled (JString "b");
               titled (JString "c")] 4)
    as (run & Hrun & _ & Hexact & _); [reflexivity | cbn; lia |].
  exists run. split; [exact Hrun | exact Hexact].
Defined.

(** C2.  The batches of a run are not always all the chunks of the
    input.  Three notifications that pass [validateNotification], the
    second with the number [12345] as its token, sent in batches of one:
    the plan has three batches, but the run is rejected by the
    [TypeError] of the second send and has worked on two of them only, so
    that the sizes of its batches sum to two and not to three.  (For
    tokens that are strings the batches are all the chunks:
    [sendBatch_batches].) *)
Theorem sendBatch_plan_incomplete :
  Forall (fun n => validateNotification n = [])
    [titled (JString "tok-1"); titled (JNumber 12345); titled (JString "tok-3")]
  /\ chunks 1 [titled (JString "tok-1"); titled (JNumber 12345);
               titled (JString "tok-3")]
     = [[titled (JString "tok-1")]; [titled (JNumber 12345)];
        [titled (JString "tok-3")]]
  /\ (forall oracle settles fuel,
        exists rounds,
          sendBatch (S (S fuel)) (constructor None (with_batchSize 1)) oracle
            settles
            [titled (JString "tok-1"); titled (JNumber 12345);
             titled (JString "tok-3")]
          = Some (mkRun
                    (Rejected
                       (TypeError
                          "notification.fcmToken.substring is not a function"))
                    rounds)
          /\ batches_of rounds
             = [[titled (JString "tok-1")]; [titled (JNumber 12345)]]
          /\ list_sum (sizes (batches_of rounds)) = 2%nat).
Proof.
  split; [repeat constructor | split; [reflexivity |]].
  intros oracle settles fuel.
  set (this := constructor None (with_batchSize 1)).
  set (input := [titled (JString "tok-1"); titled (JNumber 12345);
                 titled (JString "tok-3")]).
  assert (HN : 0 < batchSize this) by reflexivity.
  unfold sendBatch.
  rewrite (sendBatch_loop_step this oracle settles input HN)
    by (cbn; lia).
  cbn zeta.
  change (firstn (Z.to_nat (batchSize this)) (skipn (Z.to_nat 0) input))
    with [titled (JString "tok-1")].
  cbn [map_from map]. rewrite Promise_all_single. unfold send_at.
  destruct (send_string_token this (oracle (Z.to_nat 0))
              (titled (JString "tok-1")) 0 "tok-1" eq_refl)
    as (r & -> & _).
  change (0 + batchSize this) with 1.
  rewrite (sendBatch_loop_step this oracle settles input HN)
    by (cbn; lia).
  cbn zeta.
  change (firstn (Z.to_nat (batchSize this)) (skipn (Z.to_nat 1) input))
    with [titled (JNumber 12345)].
  cbn [map_from map]. rewrite Promise_all_single. unfold send_at.
  rewrite (send_non_string_token this _ (titled (JNumber 12345)) 0
             (TypeError "notification.fcmToken.substring is not a function"))
    by reflexivity.
  cbn [option_map after outcome trace]. eexists.
  split; [reflexivity | split; reflexivity].
Qed.

(** ** Retries *)

Lemma retries_attempts this notification retryCount k :
  retries (attempts this notification retryCount k) = k.
Proof.
  unfold retries. rewrite delays_of_attempts. apply repeat_length.
Qed.

(** Retries of a send for a string token.  [sendSingleNotification] is a
    total function: its recursion decreases [maxRetries - retryCount].
    For a notification with a string token whose every attempt the
    provider rejects, the send makes exactly [max 0 maxRetries] retries
    (so at most [maxRetries] of them), one provider call more than
    retries, and then resolves to the failure record of the last error;
    in the results of [sendBatch] that record stands at the position of
    the notification, in a list with one entry per notification. *)
Lemma retries_then_failure_record this oracle settles notifications fuel pos
    notification :
  0 < batchSize this ->
  (List.length notifications < fuel)%nat ->
  Forall (fun n => is_string (fcmToken n)) notifications ->
  nth_error notifications pos = Some notification ->
  (forall k, is_rejected (oracle pos k)) ->
  Z.of_nat
    (retries (trace (sendSingleNotification this (oracle pos) notification 0)))
  = Z.max 0 (maxRetries this)
  /\ provider_calls
       (trace (sendSingleNotification this (oracle pos) notification 0))
     = S (retries
            (trace (sendSingleNotification this (oracle pos) notification 0)))
  /\ exists e r results rounds,
       oracle pos (Z.max 0 (maxRetries this)) = Rejected e
       /\ outcome (sendSingleNotification this (oracle pos) notification 0)
          = Resolved r
       /\ success r = JBool false
       /\ error r = JString (message e)
       /\ sendBatch fuel this oracle settles notifications
          = Some (mkRun (Resolved results) rounds)
       /\ List.length results = List.length notifications
       /\ nth_error results pos = Some r.
Proof.
  intros HN Hfuel Hstrings Hpos Hfail.
  destruct (send_all_rejected this (oracle pos) notification 0)
    as (Htrace & e & He & Hout); [intros k _; apply Hfail |].
  rewrite Htrace, retries_attempts, provider_calls_attempts.
  split; [lia | split; [reflexivity |]].
  assert (Hstring : is_string (fcmToken notification)).
  { rewrite Forall_forall in Hstrings. apply Hstrings.
    eapply nth_error_In. exact Hpos. }
  destruct Hstring as [t Ht].
  rewrite (failure_record_string notification e t Ht) in Hout.
  destruct (sendBatch_complete this oracle settles notifications fuel HN Hfuel
              Hstrings)
    as (results & rounds & Hrun & Hsent).
  destruct (sent_in_order_nth _ _ _ _ _ _ _ Hsent Hpos) as (r & Hr & Hr').
  unfold send_at in Hr'. cbn [Nat.add] in Hr'.
  rewrite Hout in Hr'. injection Hr' as <-.
  eexists e, _, results, rounds.
  repeat split; try eassumption; try reflexivity.
  apply (sent_in_order_length _ _ _ _ _ Hsent).
Qed.

Lemma retries_then_failure_record_witness :
  exists r results rounds,
    outcome (sendSingleNotification default_sender throttled
               (titled (JString sample_token)) 0) = Resolved r
    /\ success r = JBool false
    /\ sendBatch 2 default_sender (fun _ => throttled) in_order
         [titled (JString sample_token)]
       = Some (mkRun (Resolved results) rounds)
    /\ nth_error results 0 = Some r.
Proof.
  destruct (retries_then_failure_record default_sender (fun _ => throttled)
              in_order [titled (JString sample_token)] 2 0
              (titled (JString sample_token)))
    as (_ & _ & e & r & results & rounds & _ & Hout & Hsuccess & _ & Hrun
        & _ & Hnth).
  - reflexivity.
  - cbn. lia.
  - repeat constructor. exists sample_token. reflexivity.
  - reflexivity.
  - intros k. eexists. reflexivity.
  - exists r, results, rounds. repeat split; assumption.
Defined.

(** C3.  The retries are bounded, but the failure record is not always
    reached.  A notification whose [fcmToken] is the number [12345]
    passes [validateNotification].  When the provider rejects every
    call, its send makes the three retries of the default sender and
    four provider calls, and then, instead of resolving to a failure
    record, is rejected by the [TypeError] that the [catch] block itself
    raises; [sendBatch] is rejected with it and returns no results, so
    that the notification appears in no report.  (For a string token the
    failure record is reached: [retries_then_failure_record].) *)
Theorem exhausted_send_throws :
  validateNotification (titled (JNumber 12345)) = []
  /\ retries (trace (sendSingleNotification default_sender throttled
                       (titled (JNumber 12345)) 0)) = 3%nat
  /\ provider_calls (trace (sendSingleNotification default_sender throttled
                              (titled (JNumber 12345)) 0)) = 4%nat
  /\ outcome (sendSingleNotification default_sender throttled
                (titled (JNumber 12345)) 0)
     = Rejected (TypeError "notification.fcmToken.substring is not a function")
  /\ (forall settles fuel,
        exists rounds,
          sendBatch (S fuel) default_sender (fun _ => throttled) settles
            [titled (JNumber 12345)]
          = Some (mkRun
                    (Rejected
                       (TypeError
                          "notification.fcmToken.substring is not a function"))
                    rounds)).
Proof.
  split; [reflexivity |].
  split; [vm_compute; reflexivity |].
  split; [vm_compute; reflexivity |].
  split; [vm_compute; reflexivity |].
  intros settles fuel. unfold sendBatch.
  rewrite sendBatch_loop_step by (cbn; lia). cbn zeta.
  change (firstn (Z.to_nat (batchSize default_sender))
            (skipn (Z.to_nat 0) [titled (JNumber 12345)]))
    with [titled (JNumber 12345)].
  cbn [map_from map]. rewrite Promise_all_single. unfold send_at.
  rewrite (send_non_string_token default_sender _ (titled (JNumber 12345)) 0
             (TypeError "notification.fcmToken.substring is not a function"))
    by reflexivity.
  eexists. reflexivity.
Qed.

(** ** The summary *)

Lemma filter_partition_length {A} (f : A -> bool) (l : list A) :
  (List.length (filter f l) + List.length (filter (fun a => negb (f a)) l))%nat
  = List.length l.
Proof.
  induction l as [| a l IH]; cbn; [reflexivity |].
  destruct (f a); cbn; lia.
Qed.

Example summary_of_three :
  summary (generateSummary
             [mkSendResult (JBool true) (JString "msg-1") JUndefined
                (JString "token-one-...");
              mkSendResult (JBool false) JUndefined (JString "Rate exceeded")
                (JString "token-two-...");
              mkSendResult (JBool false) JUndefined (JString "Rate exceeded")
                (JString "token-thre...")])
  = mkSummary 3 1 2
  /\ errorCounts (generateSummary
                    [mkSendResult (JBool false) JUndefined
                       (JString "Rate exceeded") (JString "a...");
                     mkSendResult (JBool false) JUndefined JUndefined
                       (JString "b...");
                     mkSendResult (JBool false) JUndefined
                       (JString "Rate exceeded") (JString "c...")])
     = [("Rate exceeded", Counted 2); ("Unknown error", Counted 1)].
Proof. split; reflexivity. Qed.

(** Error messages that name a member of [Object.prototype] are not
    counted, and a message that is an array index is listed first. *)
Example errorCounts_of_inherited_keys :
  errorCounts (generateSummary
                 [mkSendResult (JBool false) JUndefined (JString "toString")
                    (JString "a...");
                  mkSendResult (JBool false) JUndefined (JString "Rate exceeded")
                    (JString "b...");
                  mkSendResult (JBool false) JUndefined (JString "__proto__")
                    (JString "c...");
                  mkSendResult (JBool false) JUndefined (JString "404")
                    (JString "d...");
                  mkSendResult (JBool false) JUndefined (JString "toString")
                    (JString "e...")])
  = [("404", Counted 1);
     ("toString", Text "function toString() { [native code] }11");
     ("Rate exceeded", Counted 1)].
Proof. vm_compute. reflexivity. Qed.

(** An error that is a number is counted under the text of the number:
    decimal digits up to [2^53], the shortest digits that denote the number
    above, with an exponent from [10^21] on. *)
Example error_key_of_numbers :
  map error_key
    [JNumber 404; JNumber (-7); JNumber (2 ^ 53); JNumber (2 ^ 64);
     JNumber (10 ^ 21); JNumber (2 ^ 70); JNumber (- 2 ^ 100)]
  = ["404"; "-7"; "9007199254740992"; "18446744073709552000";
     "1e+21"; "1.1805916207174113e+21"; "-1.2676506002282294e+30"].
Proof. vm_compute. reflexivity. Qed.

(** C9. The summary partitions the results.  For every results list,
    [summary.total] is the number of results, [summary.successful] counts
    the entries whose [success] is truthy, [summary.failed] those whose
    [success] is falsy, and the two add up to [summary.total]. *)
Theorem generateSummary_partition results :
  total (summary (generateSummary results)) = List.length results
  /\ successful (summary (generateSummary results))
     = List.length (filter (fun r => truthy (success r)) results)
  /\ failed (summary (generateSummary results))
     = List.length (filter (fun r => negb (truthy (success r))) results)
  /\ (successful (summary (generateSummary results))
      + failed (summary (generateSummary results)))%nat
     = total (summary (generateSummary results)).
Proof.
  repeat split.
  apply (filter_partition_length (fun r => truthy (success r))).
Qed.

(** ** Token redaction *)

Lemma substring_first_ten t :
  (10 <= String.length t)%nat ->
  substring t 0 10 = String.substring 0 10 t.
Proof.
  intros Hlen. unfold substring, clamp.
  replace (Z.to_nat 0) with 0%nat by reflexivity.
  replace (Z.to_nat 10) with 10%nat by reflexivity.
  rewrite Nat.min_0_l, (Nat.min_l 10) by exact Hlen.
  rewrite Nat.min_0_l, Nat.max_0_l. reflexivity.
Qed.

(** C10.  Token redaction.  For a notification whose [fcmToken] is a
    string of at least ten characters, [sendSingleNotification] resolves,
    on success and on terminal failure alike, to a record whose
    [fcmToken] is the first ten characters of the token followed by
    ["..."].  Hence two runs on tokens that agree on their first ten
    characters report the same [fcmToken], and with the same provider
    answers the whole outcome is the same: nothing of the rest of the
    token shows in it. *)
Theorem token_redaction this publish notification t :
  fcmToken notification = JString t ->
  (10 <= String.length t)%nat ->
  (exists r,
      outcome (sendSingleNotification this publish notification 0) = Resolved r
      /\ res_fcmToken r = JString (String.substring 0 10 t ++ "...")%string)
  /\ (forall this' publish' notification' t' r r',
         fcmToken notification' = JString t' ->
         (10 <= String.length t')%nat ->
         String.substring 0 10 t' = String.substring 0 10 t ->
         outcome (sendSingleNotification this publish notification 0)
         = Resolved r ->
         outcome (sendSingleNotification this' publish' notification' 0)
         = Resolved r' ->
         res_fcmToken r' = res_fcmToken r)
  /\ (forall notification' t',
         fcmToken notification' = JString t' ->
         (10 <= String.length t')%nat ->
         String.substring 0 10 t' = String.substring 0 10 t ->
         outcome (sendSingleNotification this publish notification' 0)
         = outcome (sendSingleNotification this publish notification 0)).
Proof.
  intros Ht Hlen.
  destruct (send_string_token this publish notification 0 t Ht)
    as (r & Hout & Hshown).
  rewrite substring_first_ten in Hshown by exact Hlen.
  split; [exists r; split; assumption | split].
  - intros this' publish' notification' t' r0 r' Ht' Hlen' Hsame Hout0 Hout'.
    destruct (send_string_token this' publish' notification' 0 t' Ht')
      as (r1 & Hout1 & Hshown1).
    rewrite substring_first_ten in Hshown1 by exact Hlen'.
    rewrite Hout in Hout0. injection Hout0 as <-.
    rewrite Hout1 in Hout'. injection Hout' as <-.
    rewrite Hshown, Hshown1, Hsame. reflexivity.
  - intros notification' t' Ht' Hlen' Hsame.
    apply send_outcome_token. rewrite Ht, Ht'. cbn.
    rewrite !substring_first_ten, Hsame by assumption. reflexivity.
Qed.

Lemma token_redaction_witness :
  exists r,
    outcome (sendSingleNotification default_sender accepted
               (titled (JString sample_token)) 0) = Resolved r
    /\ res_fcmToken r = JString "dGVzdC10b2...".
Proof.
  destruct (token_redaction default_sender accepted
              (titled (JString sample_token)) sample_token)
    as ((r & Hout & Hshown) & _).
  - reflexivity.
  - cbn. lia.
  - exists r. split; [exact Hout | exact Hshown].
Defined.

(** ** What the sender does not have *)

Import Spec.

(** C4, as stated, fails: a recipient whose endpoint is disabled, a
    permanent failure, is dispatched four times by the default sender. *)
Lemma permanent_failure_is_retried :
  ~ no_retry_of_permanent classify_by_code default_sender.
Proof.
  intros Hclaim.
  specialize (Hclaim endpoint_disabled (titled (JString sample_token))
                (ProviderError "EndpointDisabled" "Endpoint is disabled")
                eq_refl eq_refl).
  vm_compute in Hclaim. discriminate Hclaim.
Qed.

(** C4, amended.  The sender does not classify errors: the retry path is
    taken after every failed attempt below [maxRetries], whatever the
    error.  If the attempt numbered [k] was made and rejected by the
    provider, and [k < maxRetries], the attempt numbered [k + 1] is
    made. *)
Theorem every_failure_is_retried this publish notification k :
  0 <= k ->
  In (publish_call this notification k)
     (trace (sendSingleNotification this publish notification 0)) ->
  is_rejected (publish k) ->
  k < maxRetries this ->
  In (publish_call this notification (k + 1))
     (trace (sendSingleNotification this publish notification 0)).
Proof.
  apply failed_attempt_is_retried.
Qed.

Lemma every_failure_is_retried_witness :
  In (publish_call default_sender (titled (JString sample_token)) 1)
     (trace (sendSingleNotification default_sender endpoint_disabled
               (titled (JString sample_token)) 0)).
Proof.
  apply (every_failure_is_retried default_sender endpoint_disabled
           (titled (JString sample_token)) 0).
  - lia.
  - left. reflexivity.
  - eexists. reflexivity.
  - reflexivity.
Defined.

(** C5, as stated, fails: the default sender waits 2000 ms before each of
    its three retries.  No schedule [base * 2^k] with [base = retryDelay]
    and a cap above the base, with whatever jitter, gives these waits,
    and they do not grow. *)
Lemma retry_delay_is_not_exponential :
  delays_of (trace (sendSingleNotification default_sender throttled
                      (titled (JString sample_token)) 0))
  = [2000; 2000; 2000]
  /\ (forall maxDelay jitterWindow,
         retryDelay default_sender < maxDelay ->
         ~ exponential_backoff (retryDelay default_sender) maxDelay
             jitterWindow
             (delays_of (trace (sendSingleNotification default_sender
                                  throttled
                                  (titled (JString sample_token)) 0))))
  /\ (forall maxDelay,
         retryDelay default_sender < maxDelay ->
         ~ grows_until_cap (retryDelay default_sender) maxDelay
             (delays_of (trace (sendSingleNotification default_sender
                                  throttled
                                  (titled (JString sample_token)) 0)))).
Proof.
  assert (Hdelays :
            delays_of (trace (sendSingleNotification default_sender throttled
                                (titled (JString sample_token)) 0))
            = [2000; 2000; 2000]) by (vm_compute; reflexivity).
  rewrite Hdelays. split; [reflexivity | split].
  - intros maxDelay jitterWindow Hcap Hclaim.
    destruct (Hclaim 1%nat 2000 eq_refl) as (jitter & Hjitter & Heq).
    change (retryDelay default_sender) with 2000 in *.
    change (2 ^ Z.of_nat 1) with 2 in Heq. lia.
  - intros maxDelay Hcap Hclaim.
    specialize (Hclaim 0%nat 2000 2000 eq_refl eq_refl).
    change (retryDelay default_sender) with 2000 in *.
    change (2 ^ Z.of_nat 0) with 1 in Hclaim. lia.
Qed.

(** The events of a row of attempts: a provider call at every even
    place, a wait of [retryDelay] at every odd one. *)
Lemma nth_error_attempts this notification retryCount k j :
  (j < k)%nat ->
  nth_error (attempts this notification retryCount k) (2 * j)
  = Some (publish_call this notification (retryCount + Z.of_nat j))
  /\ nth_error (attempts this notification retryCount k) (2 * j + 1)
     = Some (Delay (retryDelay this))
  /\ nth_error (attempts this notification retryCount k) (2 * j + 2)
     = Some (publish_call this notification (retryCount + Z.of_nat j + 1)).
Proof.
  revert retryCount j.
  induction k as [| k IH]; intros retryCount j Hj; [lia |].
  destruct j as [| j].
  - cbn [attempts Nat.mul Nat.add nth_error].
    rewrite Z.add_0_r. split; [reflexivity | split; [reflexivity |]].
    destruct k; reflexivity.
  - replace (2 * S j)%nat with (S (S (2 * j))) by lia.
    cbn [attempts Nat.add nth_error].
    destruct (IH (retryCount + 1) j ltac:(lia)) as (H0 & H1 & H2).
    replace (retryCount + Z.of_nat (S j)) with (retryCount + 1 + Z.of_nat j)
      by lia.
    split; [exact H0 | split; [exact H1 | exact H2]].
Qed.

(** C5, amended.  The wait before every retry is the fixed [retryDelay]
    of the sender (2000 ms unless configured), the same for every round:
    it is not doubled, not capped and carries no jitter.  A send is a row
    of [k + 1] provider calls with a wait of [retryDelay] between each
    call and the next: the call of retry round [j + 1] comes right after
    a wait of [retryDelay], which comes right after the call of round
    [j].  The number [k] of retries is at most [max 0 maxRetries], and
    equal to it when the provider rejects every call. *)
Theorem retry_delay_is_constant this publish notification :
  exists k,
    Z.of_nat k <= Z.max 0 (maxRetries this)
    /\ trace (sendSingleNotification this publish notification 0)
       = attempts this notification 0 k
    /\ provider_calls (trace (sendSingleNotification this publish notification 0))
       = S k
    /\ delays_of (trace (sendSingleNotification this publish notification 0))
       = repeat (retryDelay this) k
    /\ (forall j,
           (j < k)%nat ->
           nth_error (trace (sendSingleNotification this publish notification 0))
             (2 * j)
           = Some (publish_call this notification (Z.of_nat j))
           /\ nth_error
                (trace (sendSingleNotification this publish notification 0))
                (2 * j + 1)
              = Some (Delay (retryDelay this))
           /\ nth_error
                (trace (sendSingleNotification this publish notification 0))
                (2 * j + 2)
              = Some (publish_call this notification (Z.of_nat j + 1)))
    /\ ((forall j, is_rejected (publish j)) ->
        Z.of_nat k = Z.max 0 (maxRetries this)).
Proof.
  destruct (send_trace this publish notification 0) as (k & Hk & Htrace).
  exists k. rewrite Htrace.
  split; [lia | split; [reflexivity |]].
  split; [apply provider_calls_attempts |].
  split; [apply delays_of_attempts |].
  split.
  - intros j Hj. apply (nth_error_attempts this notification 0 k j Hj).
  - intros Hfail.
    destruct (send_all_rejected this publish notification 0) as (Hall & _);
      [intros j _; apply Hfail |].
    rewrite Htrace in Hall. apply (f_equal provider_calls) in Hall.
    rewrite !provider_calls_attempts in Hall. lia.
Qed.

Lemma retry_delay_is_constant_witness :
  exists k,
    trace (sendSingleNotification default_sender throttled
             (titled (JString sample_token)) 0)
    = attempts default_sender (titled (JString sample_token)) 0 k
    /\ Z.of_nat k = 3.
Proof.
  destruct (retry_delay_is_constant default_sender throttled
              (titled (JString sample_token)))
    as (k & _ & Htrace & _ & _ & _ & Hall).
  exists k. split; [exact Htrace |].
  apply Hall. intros j. eexists. reflexivity.
Defined.







(** ** The token validators *)

Section CharClasses.

Lemma in_range_spec lo hi c :
  in_range lo hi c = true <-> (lo <= nat_of_ascii c <= hi)%nat.
Proof.
  unfold in_range. rewrite andb_true_iff, !Nat.leb_le. tauto.
Qed.

Lemma alphanumeric_spec c :
  alphanumeric c = true
  <-> (65 <= nat_of_ascii c <= 90)%nat
      \/ (97 <= nat_of_ascii c <= 122)%nat
      \/ (48 <= nat_of_ascii c <= 57)%nat.
Proof.
  unfold alphanumeric. rewrite !orb_true_iff, !in_range_spec. tauto.
Qed.

Lemma token_char_spec c : token_char c = true <-> allow_listed c.
Proof.
  unfold token_char, allow_listed.
  rewrite !orb_true_iff, alphanumeric_spec, !Ascii.eqb_eq. tauto.
Qed.

Lemma prefix_char_spec c : prefix_char c = true <-> prefix_listed c.
Proof.
  unfold prefix_char, prefix_listed.
  rewrite !orb_true_iff, alphanumeric_spec, !Ascii.eqb_eq. tauto.
Qed.

Variable p : ascii -> bool.
Variable P : ascii -> Prop.
Hypothesis p_spec : forall c, p c = true <-> P c.

Lemma all_chars_spec s : all_chars p s = true <-> Forall P (chars_of s).
Proof.
  induction s as [| c s IH]; cbn.
  - split; [constructor | reflexivity].
  - rewrite andb_true_iff, Forall_cons_iff, IH, p_spec. reflexivity.
Qed.

End CharClasses.

Lemma nonempty_length s : s <> "" <-> String.length s <> 0%nat.
Proof.
  destruct s; cbn; split; congruence.
Qed.

Lemma validateFCMToken_string s :
  validateFCMToken (JString s)
  = negb (String.length s =? 0)%nat
    && negb ((String.length s <? 140)%nat || (200 <? String.length s)%nat)
    && test_token_chars s.
Proof.
  unfold validateFCMToken, truthy.
  destruct (String.length s =? 0)%nat, (String.length s <? 140)%nat,
    (200 <? String.length s)%nat, (test_token_chars s); reflexivity.
Qed.

Lemma validateFCMToken_spec : accepts_exactly_well_formed validateFCMToken.
Proof.
  intros token. unfold well_formed_token. split.
  - destruct token as [| | | | s | |]; try (cbn; discriminate).
    rewrite validateFCMToken_string. unfold test_token_chars.
    rewrite !andb_true_iff, !negb_true_iff, orb_false_iff.
    rewrite Nat.eqb_neq, !Nat.ltb_ge.
    intros ((Hne & Hlo & Hhi) & _ & Hchars).
    exists s. repeat split; try lia.
    + apply nonempty_length. exact Hne.
    + apply (all_chars_spec _ _ token_char_spec). exact Hchars.
  - intros (s & -> & Hne & Hlen & Hchars).
    rewrite validateFCMToken_string. unfold test_token_chars.
    apply nonempty_length in Hne.
    apply (all_chars_spec _ _ token_char_spec) in Hchars.
    rewrite !andb_true_iff, !negb_true_iff, orb_false_iff.
    rewrite Nat.eqb_neq, !Nat.ltb_ge.
    repeat split; try lia; assumption.
Qed.

(** The function that stands for the anchored prefix pattern finds a
    match exactly when the string begins as the pattern says. *)
Section FcmPrefix.

Lemma skip_prefix_chars_split s :
  exists w,
    s = (w ++ skip_prefix_chars s)%string
    /\ all_chars prefix_char w = true.
Proof.
  induction s as [| c s (w & Hs & Hw)]; cbn.
  - exists "". split; reflexivity.
  - destruct (prefix_char c) eqn:Hc.
    + exists (String c w). cbn. rewrite Hc, Hw, <- Hs.
      split; reflexivity.
    + exists "". split; reflexivity.
Qed.

Lemma skip_prefix_chars_app w rest :
  all_chars prefix_char w = true ->
  skip_prefix_chars (w ++ String ":" rest) = String ":" rest.
Proof.
  induction w as [| c w IH]; cbn.
  - reflexivity.
  - intros H. apply andb_true_iff in H. destruct H as [-> H].
    apply IH. exact H.
Qed.

Lemma match_fcm_format_spec s :
  match_fcm_format s = true <-> starts_with_fcm_prefix s.
Proof.
  unfold starts_with_fcm_prefix. split.
  - destruct s as [| c s]; cbn; [discriminate |].
    destruct (prefix_char c) eqn:Hc; cbn; [| discriminate].
    destruct (skip_prefix_chars_split s) as (w & Hs & Hw).
    destruct (skip_prefix_chars s) as [| sep [| d tail]];
      try discriminate.
    intros H. apply andb_true_iff in H. destruct H as [Hsep Hd].
    apply Ascii.eqb_eq in Hsep. subst sep.
    exists (String c w), (String d ""), tail.
    repeat split; try discriminate.
    + cbn. rewrite Hs at 1. reflexivity.
    + apply (all_chars_spec _ _ prefix_char_spec). cbn.
      rewrite Hc, Hw. reflexivity.
    + apply (all_chars_spec _ _ prefix_char_spec). cbn.
      rewrite Hd. reflexivity.
  - intros (w1 & w2 & rest & -> & Hw1 & Hw2 & Hall1 & Hall2).
    apply (all_chars_spec _ _ prefix_char_spec) in Hall1, Hall2.
    destruct w1 as [| c w1]; [congruence |].
    destruct w2 as [| d w2]; [congruence |].
    cbn in Hall1, Hall2 |- *.
    apply andb_true_iff in Hall1, Hall2.
    destruct Hall1 as [-> Hall1]. destruct Hall2 as [Hd _].
    rewrite (skip_prefix_chars_app w1 _ Hall1). cbn.
    rewrite Hd. reflexivity.
Qed.

End FcmPrefix.

Lemma validateTokenFormat_string s :
  valid (validateTokenFormat (JString s))
  = validateFCMToken (JString s) && match_fcm_format s.
Proof.
  rewrite validateFCMToken_string.
  unfold validateTokenFormat, truthy.
  destruct (String.length s =? 0)%nat, (String.length s <? 140)%nat,
    (200 <? String.length s)%nat, (test_token_chars s),
    (match_fcm_format s); reflexivity.
Qed.

Lemma validateTokenFormat_spec token :
  valid (validateTokenFormat token) = true
  <-> validateFCMToken token = true
      /\ exists s, token = JString s /\ match_fcm_format s = true.
Proof.
  destruct token as [| | | | s | |];
    try (cbn; split; [discriminate | intros [H _]; discriminate H]).
  rewrite validateTokenFormat_string, andb_true_iff. split.
  - intros [Hok Hfmt]. split; [exact Hok |].
    exists s. split; [reflexivity | exact Hfmt].
  - intros (Hok & s' & Hs' & Hfmt). injection Hs' as <-.
    split; assumption.
Qed.

Example validators_on_samples :
  validateFCMToken (JString (long_token "a" 139)) = false
  /\ validateFCMToken (JString (long_token "a" 140)) = true
  /\ validateFCMToken (JString (long_token "a" 201)) = false
  /\ validateFCMToken (JString (long_token " " 150)) = false
  /\ validateFCMToken (JNumber 150) = false
  /\ valid (validateTokenFormat (JString ("ab:" ++ long_token "c" 140))) = true
  /\ errors (validateTokenFormat (JString "a b"))
     = ["Token too short (minimum 140 characters)";
        "Token contains invalid characters";
        "Token does not match expected FCM format"].
Proof. repeat split; vm_compute; reflexivity. Qed.

(** C7, as stated, fails for [validateTokenFormat]: a token of 140
    letters [a] is a string within the bounds, all on the allow-list, and
    is refused, for want of a colon. *)
Lemma validateTokenFormat_refuses_well_formed :
  ~ accepts_exactly_well_formed (fun token => valid (validateTokenFormat token)).
Proof.
  intros Hclaim.
  assert (Hwf : well_formed_token (JString (long_token "a" 140))).
  { exists (long_token "a" 140). repeat split.
    - discriminate.
    - vm_compute. lia.
    - vm_compute. lia.
    - apply (all_chars_spec _ _ token_char_spec). vm_compute. reflexivity. }
  apply Hclaim in Hwf. vm_compute in Hwf. discriminate Hwf.
Qed.

(** C7, amended.  [validateFCMToken] accepts a token exactly when it is a
    non-empty string of 140 to 200 characters, all of them alphanumeric
    or one of [_ : . -].  [validateTokenFormat] accepts exactly the tokens
    that in addition start with one or more characters from the
    alphanumerics, [_] and [-], then a colon, then one more such
    character at least. *)
Theorem token_validators_accept :
  accepts_exactly_well_formed validateFCMToken
  /\ (forall token,
         valid (validateTokenFormat token) = true
         <-> well_formed_token token
             /\ exists s, token = JString s /\ starts_with_fcm_prefix s).
Proof.
  split; [exact validateFCMToken_spec |].
  intros token.
  rewrite validateTokenFormat_spec, (validateFCMToken_spec token).
  split; intros (Hwf & s & Hs & Hfmt); (split; [exact Hwf |]);
    exists s; (split; [exact Hs |]); apply match_fcm_format_spec; exact Hfmt.
Qed.

(** * Properties of the rest of the tools *)

(** ** [validateNotification] *)




(** ** The report of the sender *)

Lemma slice_prefix {A} (l : list A) (n : Z) :
  0 <= n -> slice l 0 n = firstn (Z.to_nat n) l.
Proof.
  intros Hn. unfold slice, slice_from, slice_to, relative_index.
  destruct (Z.ltb_spec n 0) as [? | _]; [lia |]. cbn [Z.ltb Z.compare].
  replace (Z.to_nat (Z.min 0 (Z.of_nat (List.length l)))) with 0%nat by lia.
  rewrite Nat.sub_0_r. cbn [skipn].
  destruct (Z.le_gt_cases n (Z.of_nat (List.length l))).
  - f_equal. lia.
  - rewrite !firstn_all2 by lia. reflexivity.
Qed.

Section Objects.

Context {A : Type}.
Implicit Types (obj : JsObject A) (key : string) (v : A).




Lemma own_update_same key v obj x :
  own_property key obj = Some x ->
  own_property key (update_property key v obj) = Some v.
Proof.
  induction obj as [| [k y] obj IH]; cbn; [discriminate |].
  destruct (String.eqb_spec k key) as [-> | Hne]; cbn.
  - rewrite String.eqb_refl. reflexivity.
  - destruct (String.eqb_spec k key); [congruence | exact IH].
Qed.

Lemma own_update_other key key' v obj :
  key <> key' ->
  own_property key (update_property key' v obj) = own_property key obj.
Proof.
  intros Hne. induction obj as [| [k y] obj IH]; cbn; [reflexivity |].
  destruct (String.eqb_spec k key') as [-> | Hk]; cbn.
  - destruct (String.eqb_spec key' key); [congruence | reflexivity].
  - destruct (String.eqb k key); [reflexivity | exact IH].
Qed.

(** A new property takes its place among the others, which keep their
    order. *)
Lemma insert_property_split key v obj :
  exists before after,
    obj = before ++ after
    /\ insert_property key v obj = before ++ (key, v) :: after.
Proof.
  induction obj as [| [k x] obj (before & after & Hobj & Hins)];
    cbn [insert_property].
  - exists [], []. split; reflexivity.
  - destruct (array_index key) as [i |], (array_index k) as [j |];
      try destruct (i <? j)%N;
      try (exists [], ((k, x) :: obj); split; reflexivity);
      exists ((k, x) :: before), after; cbn; rewrite <- Hobj, Hins;
      split; reflexivity.
Qed.




Lemma own_insert_same key v obj :
  own_property key obj = None ->
  own_property key (insert_property key v obj) = Some v.
Proof.
  destruct (insert_property_split key v obj)
    as (before & after & Hobj & ->).
  rewrite Hobj. clear Hobj.
  induction before as [| [k x] before IH]; cbn.
  - intros _. rewrite String.eqb_refl. reflexivity.
  - destruct (String.eqb k key); [discriminate | exact IH].
Qed.

Lemma own_insert_other key key' v obj :
  key <> key' ->
  own_property key (insert_property key' v obj) = own_property key obj.
Proof.
  intros Hne.
  destruct (insert_property_split key' v obj)
    as (before & after & Hobj & ->).
  rewrite Hobj. clear Hobj.
  induction before as [| [k x] before IH]; cbn.
  - destruct (String.eqb_spec key' key); [congruence | reflexivity].
  - destruct (String.eqb k key); [reflexivity | exact IH].
Qed.

Lemma own_define_same key v obj :
  own_property key (define_property key v obj) = Some v.
Proof.
  unfold define_property.
  destruct (own_property key obj) as [x |] eqn:Hown.
  - apply (own_update_same key v obj x Hown).
  - apply own_insert_same. exact Hown.
Qed.

Lemma own_define_other key key' v obj :
  key <> key' ->
  own_property key (define_property key' v obj) = own_property key obj.
Proof.
  intros Hne. unfold define_property.
  destruct (own_property key' obj).
  - apply own_update_other. exact Hne.
  - apply own_insert_other. exact Hne.
Qed.

Variable weight : A -> nat.



End Objects.

Section ErrorCounts.

Implicit Types (counts : JsObject Count) (key : string).





End ErrorCounts.




(** X3.  The samples of the report are prefixes: [failedNotifications]
    holds the first ten failed results and [sampleSuccesses] the first
    five successful ones, in the order of the results; fewer only when
    there are fewer. *)
Theorem report_samples results :
  failedNotifications (generateSummary results)
  = firstn 10 (filter (fun r => negb (truthy (success r))) results)
  /\ sampleSuccesses (generateSummary results)
     = firstn 5 (filter (fun r => truthy (success r)) results)
  /\ List.length (failedNotifications (generateSummary results))
     = Nat.min 10 (failed (summary (generateSummary results)))
  /\ List.length (sampleSuccesses (generateSummary results))
     = Nat.min 5 (successful (summary (generateSummary results)))
  /\ Forall (fun r => truthy (success r) = false)
       (failedNotifications (generateSummary results))
  /\ Forall (fun r => truthy (success r) = true)
       (sampleSuccesses (generateSummary results)).
Proof.
  cbn [generateSummary failedNotifications sampleSuccesses summary failed
         successful].
  rewrite !slice_prefix by lia.
  change (Z.to_nat 10) with 10%nat. change (Z.to_nat 5) with 5%nat.
  rewrite !length_firstn.
  split; [reflexivity | split; [reflexivity |]].
  split; [reflexivity | split; [reflexivity |]].
  split; apply Forall_firstn, Forall_forall; intros r Hr;
    apply filter_In in Hr; destruct Hr as [_ Hr].
  - apply negb_true_iff. exact Hr.
  - exact Hr.
Qed.

(** ** When a send succeeds *)




(** ** What a run of [sendBatch] does *)

















(** ** Loading a CSV file *)

Section Rows.

Implicit Types (obj : JsObject (option string)) (key : string).

Lemma own_set_same key v obj :
  key <> "__proto__" ->
  own_property key (set_property key v obj) = Some v.
Proof.
  intros Hkey. unfold set_property.
  destruct (String.eqb_spec key "__proto__"); [congruence |].
  apply own_define_same.
Qed.

Lemma own_set_other key key' v obj :
  key <> key' ->
  own_property key (set_property key' v obj) = own_property key obj.
Proof.
  intros Hne. unfold set_property.
  destruct (String.eqb key' "__proto__"); [reflexivity |].
  apply own_define_other. exact Hne.
Qed.

(** An assignment to [__proto__] leaves no property behind. *)
Lemma own_set_proto key v obj :
  own_property "__proto__" obj = None ->
  own_property "__proto__" (set_property key v obj) = None.
Proof.
  intros Hnone. destruct (String.eqb_spec key "__proto__") as [-> | Hne].
  - unfold set_property. cbn. exact Hnone.
  - rewrite own_set_other by congruence. exact Hnone.
Qed.

Lemma own_fill_absent key headers index values obj :
  ~ In key headers ->
  own_property key (fill_from headers index values obj) = own_property key obj.
Proof.
  revert index obj.
  induction headers as [| h headers IH]; intros index obj Hnotin; cbn.
  - reflexivity.
  - rewrite IH by (intros H; apply Hnotin; right; exact H).
    apply own_set_other. intros ->. apply Hnotin. left. reflexivity.
Qed.

(** With distinct headers, the property named by the header of column
    [j] holds the cell of column [j]. *)
Lemma own_fill_column key headers index values obj j :
  key <> "__proto__" ->
  NoDup headers ->
  nth_error headers j = Some key ->
  own_property key (fill_from headers index values obj)
  = Some (value_at values (index + j)).
Proof.
  intros Hkey. revert index obj j.
  induction headers as [| h headers IH]; intros index obj j Hnd Hj.
  - destruct j; discriminate Hj.
  - inversion Hnd as [| ? ? Hnotin Hrest]; subst. destruct j as [| j]; cbn in Hj.
    + injection Hj as ->. cbn [fill_from].
      rewrite own_fill_absent by exact Hnotin.
      rewrite own_set_same, Nat.add_0_r by exact Hkey. reflexivity.
    + cbn [fill_from]. rewrite (IH (S index) _ j Hrest Hj).
      f_equal. f_equal. lia.
Qed.

Lemma own_fill_proto headers index values obj :
  own_property "__proto__" obj = None ->
  own_property "__proto__" (fill_from headers index values obj) = None.
Proof.
  revert index obj.
  induction headers as [| h headers IH]; intros index obj Hnone; cbn.
  - exact Hnone.
  - apply IH, own_set_proto. exact Hnone.
Qed.

End Rows.

Lemma property_key_own p : property_key p <> "__proto__".
Proof.
  destruct p; discriminate.
Qed.

(** Every property that the sender reads of a CSV row is a string or
    [undefined]. *)
Lemma csv_row_field headers line p :
  csv_value (get_property p (csv_row headers line)).
Proof.
  unfold get_property.
  destruct (own_property (property_key p) (csv_row headers line))
    as [[cell |] |].
  - right. exists cell. reflexivity.
  - left. reflexivity.
  - left. reflexivity.
Qed.

(** X8.  A CSV column is read under its header.  When the headers are
    distinct and the header of column [j] names a property that the
    sender reads, that property of a row is the trimmed cell [j] of the
    row's line, and [undefined] when the line has no such cell.  A
    column headed [__proto__] leaves no property in the row. *)
Theorem csv_row_column headers line j p :
  NoDup headers ->
  nth_error headers j = Some (property_key p) ->
  get_property p (csv_row headers line)
  = match nth_error (split "," line) j with
    | Some cell => JString (trim cell)
    | None => JUndefined
    end
  /\ own_property "__proto__" (csv_row headers line) = None.
Proof.
  intros Hnd Hj. unfold csv_row, get_property. split.
  - rewrite (own_fill_column (property_key p) headers 0 _ [] j
               (property_key_own p) Hnd Hj).
    unfold value_at. cbn [Nat.add]. rewrite nth_error_map.
    destruct (nth_error (split "," line) j); reflexivity.
  - apply own_fill_proto. reflexivity.
Qed.

Lemma csv_row_column_witness :
  get_property P_title
    (csv_row ["fcmToken"; "__proto__"; "title"]%string "tok-1 , x,  Hello ")
  = JString "Hello".
Proof.
  apply (csv_row_column ["fcmToken"; "__proto__"; "title"]%string
           "tok-1 , x,  Hello " 2 P_title).
  - repeat constructor; cbn; intuition discriminate.
  - reflexivity.
Defined.

Lemma parse_csv_spec content :
  match parse_csv content with
  | Returned notifications =>
      S (List.length notifications) = List.length (non_blank_lines content)
      /\ Forall (fun n => csv_value (fcmToken n) /\ csv_value (title n)
                          /\ csv_value (message_body n) /\ csv_value (data n)
                          /\ csv_value (batchId n)) notifications
  | Thrown message =>
      non_blank_lines content = []
      /\ message = "Cannot read properties of undefined (reading 'split')"
  end.
Proof.
  unfold parse_csv. fold (non_blank_lines content).
  destruct (non_blank_lines content) as [| first rows].
  - split; reflexivity.
  - split.
    + rewrite length_map. reflexivity.
    + apply Forall_map, Forall_forall. intros line _.
      repeat split; apply csv_row_field.
Qed.

Lemma loadNotifications_csv filePath content JSON_parse :
  JSON_parse content = JsonSyntaxError \/ JSON_parse content = JsonNull ->
  match loadNotificationsFromFile filePath (Returned content) JSON_parse with
  | Returned notifications =>
      S (List.length notifications) = List.length (non_blank_lines content)
      /\ Forall (fun n => csv_value (fcmToken n) /\ csv_value (title n)
                          /\ csv_value (message_body n) /\ csv_value (data n)
                          /\ csv_value (batchId n)) notifications
  | Thrown message =>
      non_blank_lines content = []
      /\ message
         = ("Failed to load notifications from " ++ filePath
            ++ ": Cannot read properties of undefined (reading 'split')")%string
  end.
Proof.
  intros Hparse. unfold loadNotificationsFromFile.
  pose proof (parse_csv_spec content) as Hcsv.
  destruct Hparse as [-> | ->]; destruct (parse_csv content);
    try exact Hcsv; destruct Hcsv as [Hnone ->]; split; auto.
Qed.

(** X9.  Loading a file that is no JSON.  When the content has a
    non-blank line, [loadNotificationsFromFile] returns one notification
    for every non-blank line after the first, and each property the
    sender reads of them is a string or [undefined].  When it has none,
    the loader throws, naming the file. *)
Theorem load_csv filePath content JSON_parse :
  JSON_parse content = JsonSyntaxError \/ JSON_parse content = JsonNull ->
  match loadNotificationsFromFile filePath (Returned content) JSON_parse with
  | Returned notifications =>
      S (List.length notifications) = List.length (non_blank_lines content)
      /\ Forall (fun n => csv_value (fcmToken n) /\ csv_value (title n)
                          /\ csv_value (message_body n) /\ csv_value (data n)
                          /\ csv_value (batchId n)) notifications
  | Thrown message =>
      non_blank_lines content = []
      /\ message
         = ("Failed to load notifications from " ++ filePath
            ++ ": Cannot read properties of undefined (reading 'split')")%string
  end.
Proof.
  apply loadNotifications_csv.
Qed.

Lemma load_csv_witness :
  exists notifications,
    loadNotificationsFromFile "n.csv"
      (Returned "fcmToken,title
tok-1,Hello
tok-2") (fun _ => JsonSyntaxError)
    = Returned notifications
    /\ S (List.length notifications) = 3%nat.
Proof.
  pose proof (load_csv "n.csv" "fcmToken,title
tok-1,Hello
tok-2" (fun _ => JsonSyntaxError) (or_introl eq_refl)) as H.
  destruct (loadNotificationsFromFile _ _ _) as [notifications | message].
  - exists notifications. split; [reflexivity | apply H].
  - destruct H as [H _]. discriminate H.
Defined.

(** ** The command line driver *)

Lemma validation_errors_none index notifications :
  validation_errors_from index notifications = []
  <-> Forall (fun n => validateNotification n = []) notifications.
Proof.
  revert index. induction notifications as [| n ns IH]; intros index; cbn.
  - split; [constructor | reflexivity].
  - rewrite Forall_cons_iff, <- (IH (S index)).
    destruct (validateNotification n) as [| e errors]; cbn.
    + tauto.
    + split; [discriminate | intros [H _]; discriminate H].
Qed.


(** A command line that sends a file gets to the [try] statement. *)
Lemma main_sends_file fuel args env filePath arn read JSON_parse oracle settles
    write :
  sends_file args env filePath arn ->
  main fuel args env read JSON_parse oracle settles write
  = option_map Exits
      (main_try fuel args arn filePath env read JSON_parse oracle settles write).
Proof.
  intros (Hhelp & Hgenerate & Hfile & Harn & Hne). unfold main.
  rewrite Hhelp, Hgenerate, Hfile, Harn.
  destruct arn; [congruence | reflexivity].
Qed.








(** A results file that cannot be written turns a full delivery into an
    exit with code 1, after the report. *)
Example main_failing_write :
  main 2 (send_file_to "n.json" "out.json") None (Returned "")
    (fun _ => JsonArray [titled (JString sample_token)])
    (fun _ => accepted) in_order (Some "EACCES: permission denied")
  = Some (Exits
            {| exitCode := 1;
               stderr := ["Error: EACCES: permission denied"];
               displayed :=
                 Some {| summary := mkSummary 1 1 0;
                         errorCounts := [];
                         failedNotifications := [];
                         sampleSuccesses :=
                           [mkSendResult (JBool true) (JString "msg-1")
                              JUndefined (JString "dGVzdC10b2...")] |};
               events :=
                 [ProcessingBatch [titled (JString sample_token)]
                    [[Publish (Some sample_arn)
                        {| payload := titled (JString sample_token);
                           msg_batchId := JString "manual" |} 0]]];
               interrupted := false;
               saved := None |}).
Proof. vm_compute. reflexivity. Qed.




(** ** The request handler *)

Lemma validateInput_none body :
  validateInput body = []
  <-> (exists t, body_fcmToken body = JString t /\ (10 <= String.length t)%nat)
      /\ truthy (body_title body) = true
      /\ length_gt (body_title body) 100 = false
      /\ truthy (body_message body) = true
      /\ length_gt (body_message body) 500 = false.
Proof.
  unfold validateInput.
  assert (Htoken :
            (if negb (truthy (body_fcmToken body)) then ["Missing FCM token"]
             else if not_a_string (body_fcmToken body)
                     || length_lt (body_fcmToken body) 10
             then ["Invalid FCM token format"] else []) = []
            <-> exists t, body_fcmToken body = JString t
                          /\ (10 <= String.length t)%nat).
  { destruct (body_fcmToken body) as [| | b | z | s | items | n]; cbn;
      try (split; [discriminate | intros (t & H & _); discriminate H]).
    - destruct b; cbn; split; try discriminate;
        intros (t & H & _); discriminate H.
    - destruct (z =? 0); cbn; split; try discriminate;
        intros (t & H & _); discriminate H.
    - destruct (Nat.eqb_spec (String.length s) 0) as [Hz | Hnz]; cbn.
      + split; [discriminate |]. intros (t & H & Hlen).
        injection H as <-. lia.
      + destruct (Z.ltb_spec (Z.of_nat (String.length s)) 10)
          as [Hshort | Hlong]; cbn.
        * split; [discriminate |]. intros (t & Ht & Hlen).
          injection Ht as <-. lia.
        * split; [| reflexivity]. intros _.
          exists s. split; [reflexivity | lia]. }
  rewrite <- Htoken.
  destruct (if negb (truthy (body_fcmToken body)) then _ else _)
    as [| e1 l1]; cbn [app];
    [| split; [discriminate | intros [H _]; discriminate H]].
  destruct (truthy (body_title body)), (truthy (body_message body)),
    (length_gt (body_title body) 100), (length_gt (body_message body) 500);
    cbn; split; try discriminate; try tauto;
    intros (_ & H1 & H2 & H3 & H4); discriminate.
Qed.


Lemma handler_valid_body requestId body published :
  validateInput body = [] ->
  exists t,
    body_fcmToken body = JString t
    /\ (10 <= String.length t)%nat
    /\ handler requestId (BodyValue body) published
       = let snsMessage :=
           {| body_fcmToken := body_fcmToken body;
              body_title := body_title body;
              body_message := body_message body;
              body_data := or_else (body_data body) empty_object;
              body_android := or_else (body_android body) empty_object |} in
         match published with
         | Rejected _ =>
             mkHandling (Throws "ReferenceError" "body is not defined")
               [SnsPublish snsMessage requestId;
                IncrementCounter "LambdaErrors"]
         | Resolved snsResult =>
             mkHandling
               (Responds
                  {| statusCode := 200;
                     response_body :=
                       {| resp_success := true;
                          resp_error := None;
                          resp_details := [];
                          resp_messageId := MessageId snsResult |} |})
               [SnsPublish snsMessage requestId;
                RecordLatency "SNSPublishLatency";
                IncrementCounter "NotificationsRequested";
                RecordLatency "TotalRequestLatency";
                LogPartialToken (String.substring 0 10 t ++ "...")%string]
         end.
Proof.
  intros Hvalid.
  destruct (proj1 (validateInput_none body) Hvalid) as ((t & Ht & Hlen) & _).
  exists t. split; [exact Ht | split; [exact Hlen |]].
  unfold handler. rewrite Hvalid. cbn [List.length Nat.ltb Nat.leb].
  rewrite Ht. cbn [partialToken]. rewrite substring_first_ten by exact Hlen.
  destruct published; reflexivity.
Qed.

(** X14.  The handler publishes valid requests only.  The provider is
    called exactly when the body parses to a value that [validateInput]
    accepts.  A body with a syntax error is answered with status 400 and
    [Invalid JSON in request body]; a body with validation errors with
    status 400, [Validation failed] and those errors as details. *)
Theorem handler_publishes_valid_only requestId parsed published :
  ((exists snsMessage,
       In (SnsPublish snsMessage requestId)
          (handler_events (handler requestId parsed published)))
   <-> exists body, parsed = BodyValue body /\ validateInput body = [])
  /\ (parsed = BodySyntaxError ->
      handled (handler requestId parsed published)
      = Responds {| statusCode := 400;
                    response_body :=
                      {| resp_success := false;
                         resp_error := Some "Invalid JSON in request body";
                         resp_details := [];
                         resp_messageId := JUndefined |} |})
  /\ (forall body,
         parsed = BodyValue body -> validateInput body <> [] ->
         handled (handler requestId parsed published)
         = Responds {| statusCode := 400;
                       response_body :=
                         {| resp_success := false;
                            resp_error := Some "Validation failed";
                            resp_details := validateInput body;
                            resp_messageId := JUndefined |} |}).
Proof.
  split; [| split].
  - destruct parsed as [| | body].
    + cbn. split.
      * intros (m & [H | []]). discriminate H.
      * intros (body & H & _). discriminate H.
    + cbn. split.
      * intros (m & [H | []]). discriminate H.
      * intros (body & H & _). discriminate H.
    + destruct (validateInput body) as [| e errors] eqn:Hval.
      * destruct (handler_valid_body requestId body published Hval)
          as (t & _ & _ & ->).
        split; [intros _; exists body; split; [reflexivity | exact Hval] |].
        intros _. eexists. destruct published; left; reflexivity.
      * unfold handler. rewrite Hval. cbn. split.
        -- intros (m & [H | []]). discriminate H.
        -- intros (body' & H & Hnone). injection H as <-. congruence.
  - intros ->. reflexivity.
  - intros body -> Hbad. unfold handler.
    destruct (validateInput body); [congruence | reflexivity].
Qed.

(** X15.  The answers of the handler.  A response has status 200 or 400,
    never 500.  For a body that [validateInput] accepts: when the
    provider accepts the message, the answer is 200 with the provider's
    [MessageId], and the token is logged as its first ten characters
    followed by [...]; when the provider rejects it, the handler counts a
    [LambdaErrors] metric and then throws a [ReferenceError], because the
    [catch] block reads the variable [body] that is declared inside the
    [try] block. *)
Theorem handler_answers requestId parsed published :
  (forall response,
      handled (handler requestId parsed published) = Responds response ->
      statusCode response = 200 \/ statusCode response = 400)
  /\ (forall body,
         parsed = BodyValue body -> validateInput body = [] ->
         match published with
         | Resolved snsResult =>
             handled (handler requestId parsed published)
             = Responds {| statusCode := 200;
                           response_body :=
                             {| resp_success := true;
                                resp_error := None;
                                resp_details := [];
                                resp_messageId := MessageId snsResult |} |}
             /\ exists t,
                  body_fcmToken body = JString t
                  /\ In (LogPartialToken
                           (String.substring 0 10 t ++ "...")%string)
                        (handler_events (handler requestId parsed published))
         | Rejected _ =>
             handled (handler requestId parsed published)
             = Throws "ReferenceError" "body is not defined"
             /\ In (IncrementCounter "LambdaErrors")
                   (handler_events (handler requestId parsed published))
         end).
Proof.
  split.
  - intros response. destruct parsed as [| | body].
    + cbn. intros H. injection H as <-. right. reflexivity.
    + cbn. discriminate.
    + destruct (validateInput body) as [| e errors] eqn:Hval.
      * destruct (handler_valid_body requestId body published Hval)
          as (t & _ & _ & ->).
        destruct published; cbn; [| discriminate].
        intros H. injection H as <-. left. reflexivity.
      * unfold handler. rewrite Hval. cbn.
        intros H. injection H as <-. right. reflexivity.
  - intros body -> Hval.
    destruct (handler_valid_body requestId body published Hval)
      as (t & Ht & _ & ->).
    destruct published; cbn.
    + split; [reflexivity |]. exists t. split; [exact Ht |].
      right. right. right. right. left. reflexivity.
    + split; [reflexivity |]. right. left. reflexivity.
Qed.

Lemma handler_publishes_valid_only_witness :
  handled (handler "r-1" BodySyntaxError accepted_response)
  = Responds {| statusCode := 400;
                response_body :=
                  {| resp_success := false;
                     resp_error := Some "Invalid JSON in request body";
                     resp_details := [];
                     resp_messageId := JUndefined |} |}.
Proof.
  apply (handler_publishes_valid_only "r-1" BodySyntaxError accepted_response).
  reflexivity.
Defined.

Lemma handler_answers_witness :
  handled (handler "r-1" (BodyValue sample_body)
             (Rejected (ProviderError "Throttling" "Rate exceeded")))
  = Throws "ReferenceError" "body is not defined".
Proof.
  destruct (handler_answers "r-1" (BodyValue sample_body)
              (Rejected (ProviderError "Throttling" "Rate exceeded")))
    as [_ H].
  apply (H sample_body eq_refl eq_refl).
Defined.

(** ** The token validator *)

Section ValidateToken.

Variable initialized : bool.
Variable send : DryRun.

Lemma validateToken_invalid_format s :
  valid (validateTokenFormat (JString s)) = false ->
  validateToken initialized send (JString s)
  = mkValidation
      (Resolved {| shown_token := (substring s 0 20 ++ "...")%string;
                   formatValid := false;
                   connectivityValid := None;
                   token_errors := errors (validateTokenFormat (JString s));
                   errorCode := JUndefined;
                   status := "INVALID_FORMAT" |})
      [].
Proof.
  intros Hinvalid. unfold validateToken. rewrite Hinvalid. reflexivity.
Qed.

Lemma validateToken_not_string token :
  ~ is_string token ->
  exists msg,
    validateToken initialized send token
    = mkValidation (Rejected (TypeError msg)) [].
Proof.
  intros Hns. destruct token; try (eexists; reflexivity).
  exfalso. apply Hns. eexists. reflexivity.
Qed.

(** What [validateToken] does with a string. *)
Lemma validateToken_string s :
  exists r,
    settled (validateToken initialized send (JString s)) = Resolved r
    /\ shown_token r = (substring s 0 20 ++ "...")%string
    /\ formatValid r = valid (validateTokenFormat (JString s))
    /\ known_status (status r)
    /\ (status r = "INVALID_FORMAT"
        <-> valid (validateTokenFormat (JString s)) = false)
    /\ (status r = "UNKNOWN"
        <-> valid (validateTokenFormat (JString s)) = true
            /\ initialized = false)
    /\ (status r = "VALID"
        <-> valid (validateTokenFormat (JString s)) = true
            /\ initialized = true
            /\ exists messageId, send = DryRunOk messageId)
    /\ (status r = "INVALID_TOKEN"
        <-> valid (validateTokenFormat (JString s)) = true
            /\ initialized = true
            /\ exists e, send = DryRunFailed e)
    /\ dry_runs (validateToken initialized send (JString s))
       = if valid (validateTokenFormat (JString s)) && initialized
         then [DryRunSent s] else [].
Proof.
  destruct (valid (validateTokenFormat (JString s))) eqn:Hvalid.
  - unfold validateToken, validateTokenConnectivity. rewrite Hvalid.
    cbn [negb andb].
    destruct initialized; cbn [negb]; [destruct send as [id | e] |];
      cbn [settled dry_runs conn_valid];
      (eexists; split; [reflexivity |]);
      cbn [shown_token formatValid status]; unfold known_status;
      repeat split; try reflexivity; try discriminate; try tauto;
      try (intros (_ & _ & id' & H); discriminate H);
      try (intros (_ & H); discriminate H);
      try (intros (_ & H & _); discriminate H).
    + exists id. reflexivity.
    + exists e. reflexivity.
  - rewrite (validateToken_invalid_format s Hvalid).
    eexists. split; [reflexivity |].
    cbn [shown_token formatValid status dry_runs andb]. unfold known_status.
    repeat split; try reflexivity; try discriminate; try tauto;
      try (intros (H & _); discriminate H).
Qed.

End ValidateToken.

(** X16.  The verdict on a string token.  [validateToken] resolves for
    every string, showing its first twenty characters.  The status is
    [INVALID_FORMAT] exactly when [validateTokenFormat] refuses the
    token, [UNKNOWN] exactly when the format is valid and the validator
    is not initialized, [VALID] exactly when the format is valid, the
    validator is initialized and the dry run succeeds, and
    [INVALID_TOKEN] exactly when it fails instead; Firebase is called
    exactly for a valid format with an initialized validator. *)
Theorem validateToken_verdict initialized send s :
  exists r,
    settled (validateToken initialized send (JString s)) = Resolved r
    /\ shown_token r = (substring s 0 20 ++ "...")%string
    /\ formatValid r = valid (validateTokenFormat (JString s))
    /\ known_status (status r)
    /\ (status r = "INVALID_FORMAT"
        <-> valid (validateTokenFormat (JString s)) = false)
    /\ (status r = "UNKNOWN"
        <-> valid (validateTokenFormat (JString s)) = true
            /\ initialized = false)
    /\ (status r = "VALID"
        <-> valid (validateTokenFormat (JString s)) = true
            /\ initialized = true
            /\ exists messageId, send = DryRunOk messageId)
    /\ (status r = "INVALID_TOKEN"
        <-> valid (validateTokenFormat (JString s)) = true
            /\ initialized = true
            /\ exists e, send = DryRunFailed e)
    /\ dry_runs (validateToken initialized send (JString s))
       = if valid (validateTokenFormat (JString s)) && initialized
         then [DryRunSent s] else [].
Proof.
  apply validateToken_string.
Qed.

(** X17.  [validateToken] resolves exactly for strings.  For any other
    token the format check fails and [token.substring] then raises a
    [TypeError]: the validation is rejected, without a call to
    Firebase. *)
Theorem validateToken_resolves_iff initialized send token :
  ((exists r, settled (validateToken initialized send token) = Resolved r)
   <-> is_string token)
  /\ (~ is_string token ->
      exists msg,
        validateToken initialized send token
        = mkValidation (Rejected (TypeError msg)) []).
Proof.
  split; [| apply validateToken_not_string].
  split.
  - intros (r & Hr). destruct token; try (eexists; reflexivity);
      cbn in Hr; discriminate Hr.
  - intros [s ->].
    destruct (validateToken_string initialized send s) as (r & Hr & _).
    exists r. exact Hr.
Qed.

Lemma validateToken_resolves_iff_witness :
  exists msg,
    validateToken true (DryRunOk "id") (JNumber 42)
    = mkValidation (Rejected (TypeError msg)) [].
Proof.
  apply (validateToken_resolves_iff true (DryRunOk "id") (JNumber 42)).
  intros [s Hs]. discriminate Hs.
Defined.

(** ** Validating many tokens *)

Section ValidateTokens.

Variable initialized : bool.
Variable oracle : DryRuns.

Lemma validate_all_strings delay pos batch :
  Forall is_string batch ->
  exists results,
    settled (validate_all
               (map_from (fun p token =>
                            validateToken initialized (oracle p) token)
                  pos batch)) = Resolved results
    /\ validated_in_order initialized oracle pos batch results
    /\ Forall (expected_event initialized delay)
         (dry_runs (validate_all
                      (map_from (fun p token =>
                                   validateToken initialized (oracle p) token)
                         pos batch))).
Proof.
  revert pos. induction batch as [| token batch IH]; intros pos Hall.
  - exists []. repeat split; constructor.
  - inversion Hall as [| ? ? [s ->] Hrest]; subst.
    destruct (IH (S pos) Hrest) as (results & Hres & Hord & Hev).
    destruct (validateToken_string initialized (oracle pos) s)
      as (r & Hr & _ & _ & _ & _ & _ & _ & _ & Hcalls).
    exists (r :: results). cbn [map_from validate_all settled dry_runs].
    rewrite Hr, Hres. split; [reflexivity | split].
    + constructor; assumption.
    + apply Forall_app. split; [| exact Hev]. rewrite Hcalls.
      destruct (valid (validateTokenFormat (JString s))) eqn:Hvalid;
        destruct initialized; cbn; repeat constructor. exact Hvalid.
Qed.

Lemma validated_in_order_app pos l1 l2 r1 r2 :
  validated_in_order initialized oracle pos l1 r1 ->
  validated_in_order initialized oracle (pos + List.length l1) l2 r2 ->
  validated_in_order initialized oracle pos (l1 ++ l2) (r1 ++ r2).
Proof.
  intros H1. induction H1 as [pos | pos t ts r rs Hr _ IH]; cbn; intros H2.
  - rewrite Nat.add_0_r in H2. exact H2.
  - constructor; [exact Hr |]. apply IH.
    replace (S pos + List.length ts)%nat
      with (pos + S (List.length ts))%nat by lia.
    exact H2.
Qed.

Lemma validated_in_order_length pos l results :
  validated_in_order initialized oracle pos l results ->
  List.length results = List.length l.
Proof.
  induction 1; cbn; congruence.
Qed.

Lemma validated_in_order_nth pos l results k token :
  validated_in_order initialized oracle pos l results ->
  nth_error l k = Some token ->
  exists r,
    nth_error results k = Some r
    /\ settled (validateToken initialized (oracle (pos + k)%nat) token)
       = Resolved r.
Proof.
  intros H. revert k.
  induction H as [pos | pos t ts r rs Hr _ IH]; intros k Hk.
  - destruct k; discriminate Hk.
  - destruct k as [| k]; cbn in Hk.
    + injection Hk as <-. exists r. rewrite Nat.add_0_r.
      split; [reflexivity | exact Hr].
    + destruct (IH k Hk) as (r' & Hr' & Hs').
      exists r'. split; [exact Hr' |].
      replace (pos + S k)%nat with (S pos + k)%nat by lia. exact Hs'.
Qed.

Variable tokens : list JsValue.
Variable N : Z.
Variable delay : JsNumber.
Hypothesis positive_batchSize : 0 < N.
Hypothesis string_tokens : Forall is_string tokens.

(** With a positive batch size and string tokens the loop ends, with the
    results of the rest of the input in order. *)
Lemma validateTokens_loop_spec fuel i results :
  0 <= i ->
  (Z.to_nat (Z.of_nat (List.length tokens) - i) < fuel)%nat ->
  exists validated events,
    validateTokens_loop fuel initialized oracle tokens (Num N) delay (Num i)
      results
    = Some (mkValidation (Resolved (results ++ validated)) events)
    /\ validated_in_order initialized oracle (Z.to_nat i)
         (skipn (Z.to_nat i) tokens) validated
    /\ Forall (expected_event initialized delay) events.
Proof.
  revert i results.
  induction fuel as [| fuel IH]; intros i results Hi Hfuel; [lia |].
  cbn [validateTokens_loop number_lt number_add to_integer].
  destruct (Z.ltb_spec i (Z.of_nat (List.length tokens))) as [Hlt | Hge].
  - destruct (slice_consecutive tokens i N) as [-> ->];
      [lia | exact positive_batchSize |].
    set (batch := firstn (Z.to_nat N) (skipn (Z.to_nat i) tokens)).
    destruct (validate_all_strings delay (Z.to_nat i) batch)
      as (batchResults & Hres & Hord & Hev).
    { apply Forall_firstn, Forall_skipn. exact string_tokens. }
    rewrite Hres.
    destruct (IH (i + N) (results ++ batchResults))
      as (validated & events & -> & Hlater & Hev'); [lia | lia |].
    cbn [option_map settled dry_runs].
    rewrite <- (app_assoc results batchResults validated).
    exists (batchResults ++ validated). eexists.
    split; [reflexivity | split].
    + assert (Hsplit :
                validated_in_order initialized oracle (Z.to_nat i)
                  (batch ++ skipn (Z.to_nat N) (skipn (Z.to_nat i) tokens))
                  (batchResults ++ validated)).
      { apply validated_in_order_app; [exact Hord |].
        unfold batch. rewrite length_firstn.
        destruct (Nat.le_gt_cases (Z.to_nat N)
                    (List.length (skipn (Z.to_nat i) tokens))) as [Hle | Hgt].
        - rewrite Nat.min_l by exact Hle. rewrite skipn_skipn.
          replace (Z.to_nat N + Z.to_nat i)%nat with (Z.to_nat (i + N))
            by lia.
          replace (Z.to_nat i + Z.to_nat N)%nat with (Z.to_nat (i + N))
            by lia.
          exact Hlater.
        - rewrite (skipn_all2 (skipn (Z.to_nat i) tokens)) by lia.
          assert (Hnil : skipn (Z.to_nat (i + N)) tokens = []).
          { apply skipn_all2. rewrite length_skipn in Hgt. lia. }
          rewrite Hnil in Hlater. inversion Hlater; subst. constructor. }
      unfold batch in Hsplit. rewrite firstn_skipn in Hsplit. exact Hsplit.
    + apply Forall_app. split; [exact Hev |].
      apply Forall_app. split; [| exact Hev'].
      destruct (Z.ltb_spec (i + N) (Z.of_nat (List.length tokens)));
        cbn [andb]; [| constructor].
      destruct delay as [| d]; cbn [number_lt]; [constructor |].
      destruct (Z.ltb_spec 0 d) as [Hpos | Hnot]; repeat constructor.
      exact Hpos.
  - exists [], []. rewrite app_nil_r. split; [reflexivity | split].
    + rewrite skipn_all2 by lia. constructor.
    + constructor.
Qed.

End ValidateTokens.

Lemma validateTokens_ordered fuel initialized oracle tokens options N :
  or_default (vo_batchSize options) 10 = Num N ->
  0 < N ->
  Forall is_string tokens ->
  (List.length tokens < fuel)%nat ->
  exists results events,
    validateTokens fuel initialized oracle tokens options
    = Some (mkValidation (Resolved results) events)
    /\ validated_in_order initialized oracle 0 tokens results
    /\ Forall (expected_event initialized (or_default (vo_delay options) 100))
         events.
Proof.
  intros Hsize HN Hstrings Hfuel. unfold validateTokens. rewrite Hsize.
  destruct (validateTokens_loop_spec initialized oracle tokens N
              (or_default (vo_delay options) 100) HN Hstrings fuel 0 [])
    as (validated & events & Hrun & Hord & Hev); [lia | lia |].
  exists validated, events. split; [exact Hrun | split; assumption].
Qed.

(** X18.  Validating a list of string tokens with a positive batch size
    (ten when none is given) resolves to one result per token, in the
    order of the tokens, each the verdict of [validateToken] on its
    token.  Firebase is called for tokens of valid format only, and only
    by an initialized validator. *)
Theorem validateTokens_results fuel initialized oracle tokens options N :
  or_default (vo_batchSize options) 10 = Num N ->
  0 < N ->
  Forall is_string tokens ->
  (List.length tokens < fuel)%nat ->
  exists results events,
    validateTokens fuel initialized oracle tokens options
    = Some (mkValidation (Resolved results) events)
    /\ List.length results = List.length tokens
    /\ (forall k token,
           nth_error tokens k = Some token ->
           exists r,
             nth_error results k = Some r
             /\ settled (validateToken initialized (oracle k) token)
                = Resolved r)
    /\ (forall token,
           In (DryRunSent token) events ->
           initialized = true
           /\ valid (validateTokenFormat (JString token)) = true).
Proof.
  intros Hsize HN Hstrings Hfuel.
  destruct (validateTokens_ordered fuel initialized oracle tokens options N
              Hsize HN Hstrings Hfuel)
    as (results & events & Hrun & Hord & Hev).
  exists results, events. split; [exact Hrun | split; [| split]].
  - apply (validated_in_order_length _ _ _ _ _ Hord).
  - intros k token Hk.
    apply (validated_in_order_nth _ _ _ _ _ _ _ Hord Hk).
  - intros token Hin. rewrite Forall_forall in Hev.
    apply (Hev _ Hin).
Qed.

Lemma validateTokens_results_witness :
  exists results events,
    validateTokens 3 false (fun _ => DryRunOk "id")
      [JString "abc"; JString sample_token] (mkValidateOptions None None)
    = Some (mkValidation (Resolved results) events)
    /\ List.length results = 2%nat.
Proof.
  destruct (validateTokens_results 3 false (fun _ => DryRunOk "id")
              [JString "abc"; JString sample_token]
              (mkValidateOptions None None) 10)
    as (results & events & Hrun & Hlen & _).
  - reflexivity.
  - lia.
  - repeat constructor; eexists; reflexivity.
  - cbn. lia.
  - exists results, events. split; [exact Hrun | exact Hlen].
Defined.

Lemma slice_empty {A} (l : list A) : slice l 0 0 = [].
Proof.
  rewrite slice_prefix by lia. reflexivity.
Qed.

Lemma validateTokens_loop_zero fuel initialized oracle tokens delay results :
  tokens <> [] ->
  validateTokens_loop fuel initialized oracle tokens (Num 0) delay (Num 0)
    results = None.
Proof.
  intros Hne. revert results.
  induction fuel as [| fuel IH]; intros results; [reflexivity |].
  cbn [validateTokens_loop number_lt number_add to_integer Z.add].
  destruct (Z.ltb_spec 0 (Z.of_nat (List.length tokens))) as [_ | Hlen].
  - rewrite slice_empty. cbn [map_from validate_all settled].
    rewrite IH. reflexivity.
  - destruct tokens; [congruence | cbn in Hlen; lia].
Qed.

(** X19.  Batch sizes that are not positive numbers.  The default of
    [validateTokens] replaces a missing batch size only.  With a batch
    size of [0] and at least one token the loop never advances and the
    call never returns.  With the batch size [NaN] (what [parseInt]
    yields for a malformed [--batch-size]) the call returns an empty list
    of results, whatever the tokens, without validating any of them. *)
Theorem validateTokens_degenerate_sizes initialized oracle tokens delay :
  (tokens <> [] ->
   forall fuel,
     validateTokens fuel initialized oracle tokens
       (mkValidateOptions (Some (Num 0)) delay) = None)
  /\ (forall fuel,
         validateTokens (S (S fuel)) initialized oracle tokens
           (mkValidateOptions (Some NaN) delay)
         = Some (mkValidation (Resolved []) [])).
Proof.
  split.
  - intros Hne fuel. unfold validateTokens. cbn [vo_batchSize or_default].
    apply validateTokens_loop_zero. exact Hne.
  - intros fuel. unfold validateTokens.
    cbn [vo_batchSize or_default validateTokens_loop number_lt number_add
           to_integer andb].
    destruct (0 <? Z.of_nat (List.length tokens)); [| reflexivity].
    rewrite slice_empty. reflexivity.
Qed.

Lemma validateTokens_degenerate_sizes_witness :
  validateTokens 100 true (fun _ => DryRunOk "id") [JString sample_token]
    (mkValidateOptions (Some (Num 0)) None) = None.
Proof.
  apply (validateTokens_degenerate_sizes true (fun _ => DryRunOk "id")
           [JString sample_token] None).
  discriminate.
Defined.

(** ** The validation report *)

Lemma count_status_cons name r results :
  count_status name (r :: results)
  = ((if String.eqb (status r) name then 1 else 0)
     + count_status name results)%nat.
Proof.
  unfold count_status. cbn [filter].
  destruct (String.eqb (status r) name); reflexivity.
Qed.

Lemma report_partition results :
  Forall (fun r => known_status (status r)) results ->
  vs_total (generateReport results)
  = (vs_valid (generateReport results) + vs_invalid (generateReport results)
     + vs_unknown (generateReport results))%nat.
Proof.
  cbn [generateReport vs_total vs_valid vs_invalid vs_unknown].
  induction 1 as [| r results Hr _ IH]; [reflexivity |].
  rewrite !count_status_cons. cbn [List.length]. rewrite IH.
  destruct Hr as [-> | [-> | [-> | ->]]]; cbn; lia.
Qed.

Lemma count_status_none name results :
  Forall (fun r => status r <> name) results ->
  count_status name results = 0%nat.
Proof.
  induction 1 as [| r results Hr _ IH]; [reflexivity |].
  rewrite count_status_cons, IH.
  destruct (String.eqb_spec (status r) name); [congruence | reflexivity].
Qed.

Lemma validated_in_order_Forall initialized oracle (P : TokenResult -> Prop)
    pos tokens results :
  (forall p token r,
      In token tokens ->
      settled (validateToken initialized (oracle p) token) = Resolved r ->
      P r) ->
  validated_in_order initialized oracle pos tokens results ->
  Forall P results.
Proof.
  intros HP Hord.
  induction Hord as [pos | pos t ts r rs Hr _ IH]; constructor.
  - apply (HP pos t r); [left; reflexivity | exact Hr].
  - apply IH. intros p t' r' Ht'. apply HP. right. exact Ht'.
Qed.

(** X20.  The report on a validated list.  For string tokens and a
    positive batch size, the report of [generateReport] on the results of
    [validateTokens] counts every token once: [total] is the number of
    tokens and equals [valid + invalid + unknown], with
    [invalid = invalidFormat + invalidToken].  A validator that is not
    initialized reports no token as valid and none as an invalid token:
    every token of valid format is [unknown]. *)
Theorem report_of_validation fuel initialized oracle tokens options N :
  or_default (vo_batchSize options) 10 = Num N ->
  0 < N ->
  Forall is_string tokens ->
  (List.length tokens < fuel)%nat ->
  exists results events,
    validateTokens fuel initialized oracle tokens options
    = Some (mkValidation (Resolved results) events)
    /\ vs_total (generateReport results) = List.length tokens
    /\ vs_total (generateReport results)
       = (vs_valid (generateReport results)
          + vs_invalid (generateReport results)
          + vs_unknown (generateReport results))%nat
    /\ vs_invalid (generateReport results)
       = (vs_invalidFormat (generateReport results)
          + vs_invalidToken (generateReport results))%nat
    /\ (initialized = false ->
        vs_valid (generateReport results) = 0%nat
        /\ vs_invalidToken (generateReport results) = 0%nat).
Proof.
  intros Hsize HN Hstrings Hfuel.
  destruct (validateTokens_ordered fuel initialized oracle tokens options N
              Hsize HN Hstrings Hfuel)
    as (results & events & Hrun & Hord & Hev).
  exists results, events. split; [exact Hrun |].
  assert (Hverdict :
            forall p token r,
              In token tokens ->
              settled (validateToken initialized (oracle p) token) = Resolved r ->
              known_status (status r)
              /\ (initialized = false ->
                  status r <> "VALID" /\ status r <> "INVALID_TOKEN")).
  { intros p token r Hin Hr. rewrite Forall_forall in Hstrings.
    destruct (Hstrings token Hin) as [s ->].
    destruct (validateToken_string initialized (oracle p) s)
      as (r' & Hr' & _ & _ & Hknown & _ & _ & Hvalid & Htoken & _).
    rewrite Hr' in Hr. injection Hr as <-. split; [exact Hknown |].
    intros Hinit. split; intros Hs.
    - apply Hvalid in Hs. destruct Hs as (_ & Hi & _). congruence.
    - apply Htoken in Hs. destruct Hs as (_ & Hi & _). congruence. }
  split; [| split; [| split; [reflexivity |]]].
  - cbn [generateReport vs_total].
    apply (validated_in_order_length _ _ _ _ _ Hord).
  - apply report_partition.
    apply (validated_in_order_Forall initialized oracle _ 0 tokens results);
      [| exact Hord].
    intros p token r Hin Hr. apply (Hverdict p token r Hin Hr).
  - intros Hinit. cbn [generateReport vs_valid vs_invalidToken].
    split.
    + apply count_status_none.
      apply (validated_in_order_Forall initialized oracle _ 0 tokens results);
        [| exact Hord].
      intros p token r Hin Hr. apply (Hverdict p token r Hin Hr). exact Hinit.
    + apply count_status_none.
      apply (validated_in_order_Forall initialized oracle _ 0 tokens results);
        [| exact Hord].
      intros p token r Hin Hr. apply (Hverdict p token r Hin Hr). exact Hinit.
Qed.

Lemma report_of_validation_witness :
  exists results events,
    validateTokens 3 false (fun _ => DryRunOk "id")
      [JString "abc"; JString sample_token] (mkValidateOptions None None)
    = Some (mkValidation (Resolved results) events)
    /\ vs_total (generateReport results) = 2%nat
    /\ vs_valid (generateReport results) = 0%nat.
Proof.
  destruct (report_of_validation 3 false (fun _ => DryRunOk "id")
              [JString "abc"; JString sample_token]
              (mkValidateOptions None None) 10)
    as (results & events & Hrun & Htotal & _ & _ & Hformat).
  - reflexivity.
  - lia.
  - repeat constructor; eexists; reflexivity.
  - cbn. lia.
  - exists results, events. split; [exact Hrun |].
    split; [exact Htotal | apply Hformat; reflexivity].
Defined.

(** ** Loading tokens *)

Section Trimming.

Lemma split_no_separator sep s :
  Forall (fun piece => ~ In sep (list_ascii_of_string piece)) (split sep s).
Proof.
  induction s as [| c s IH]; cbn [split].
  - constructor; [intros [] | constructor].
  - destruct (Ascii.eqb_spec c sep) as [-> | Hne].
    + constructor; [intros [] | exact IH].
    + destruct (split sep s) as [| piece pieces].
      * constructor; [| constructor]. cbn. intros [H | []]. congruence.
      * inversion IH as [| ? ? Hpiece Hpieces]; subst.
        constructor; [| exact Hpieces].
        cbn. intros [H | H]; [congruence | exact (Hpiece H)].
Qed.

Lemma trimStart_chars s c :
  In c (list_ascii_of_string (trimStart s)) ->
  In c (list_ascii_of_string s).
Proof.
  induction s as [| c' s IH]; cbn; [exact (fun H => H) |].
  destruct (white_space c'); [intros H; right; exact (IH H) | exact (fun H => H)].
Qed.

Lemma trimEnd_chars s c :
  In c (list_ascii_of_string (trimEnd s)) ->
  In c (list_ascii_of_string s).
Proof.
  induction s as [| c' s IH]; cbn [trimEnd]; [exact (fun H => H) |].
  destruct (trimEnd s) as [| k kept].
  - destruct (white_space c'); cbn; [intros [] |].
    intros [H | []]. left. exact H.
  - cbn in *. intros [H | H]; [left; exact H | right; exact (IH H)].
Qed.

Lemma trimStart_first s c :
  first_char (trimStart s) = Some c -> white_space c = false.
Proof.
  induction s as [| c' s IH]; cbn; [discriminate |].
  destruct (white_space c') eqn:Hc'; [exact IH |].
  cbn. intros H. injection H as <-. exact Hc'.
Qed.

Lemma trimEnd_first s c :
  first_char (trimEnd s) = Some c -> first_char s = Some c.
Proof.
  destruct s as [| c' s]; cbn [trimEnd]; [discriminate |].
  destruct (trimEnd s); [destruct (white_space c') |]; cbn;
    try discriminate; exact (fun H => H).
Qed.

Lemma trimEnd_last s c :
  last_char (trimEnd s) = Some c -> white_space c = false.
Proof.
  induction s as [| c' s IH]; cbn [trimEnd]; [discriminate |].
  destruct (trimEnd s) as [| k kept].
  - destruct (white_space c') eqn:Hc'; cbn; [discriminate |].
    intros H. injection H as <-. exact Hc'.
  - cbn [last_char]. exact IH.
Qed.

(** A trimmed piece of a split at line feeds is empty or clean. *)
Lemma trim_clean piece :
  ~ In "010"%char (list_ascii_of_string piece) ->
  non_empty (trim piece) = true ->
  clean_token (trim piece).
Proof.
  intros Hnl Hne. unfold clean_token, trim in *. repeat split.
  - intros Hempty. rewrite Hempty in Hne. discriminate Hne.
  - intros c Hc. apply trimEnd_first in Hc.
    apply (trimStart_first _ _ Hc).
  - intros c Hc. apply (trimEnd_last _ _ Hc).
  - intros Hin. apply Hnl. apply trimStart_chars, trimEnd_chars, Hin.
Qed.

End Trimming.

Lemma loadTokens_lines content :
  Forall clean_token (filter non_empty (map trim (split "010" content))).
Proof.
  apply Forall_forall. intros token Hin. apply filter_In in Hin.
  destruct Hin as [Hin Hne]. apply in_map_iff in Hin.
  destruct Hin as (piece & <- & Hpiece).
  apply trim_clean; [| exact Hne].
  pose proof (split_no_separator "010" content) as Hsplit.
  rewrite Forall_forall in Hsplit. apply (Hsplit piece Hpiece).
Qed.

(** X21.  Loading tokens from a file that was read.  The loader always
    returns a list.  When the content is a JSON array, or a JSON object
    with a [tokens] array, that array is returned.  In every other case,
    also for JSON without tokens, whose error is caught on the spot, the
    tokens are the lines of the content, trimmed, in order and without
    the blank ones: each is a non-empty string with no white space at
    either end and no line feed. *)
Theorem loadTokens_from_content filePath content JSON_parse :
  (exists tokens,
      loadTokensFromFile filePath (Returned content) JSON_parse
      = Returned tokens)
  /\ (forall tokens,
         JSON_parse content = JsonArray tokens
         \/ JSON_parse content = JsonWithArray tokens ->
         loadTokensFromFile filePath (Returned content) JSON_parse
         = Returned tokens)
  /\ (JSON_parse content = JsonSyntaxError
      \/ JSON_parse content = JsonNull
      \/ JSON_parse content = JsonOther ->
      exists lines,
        loadTokensFromFile filePath (Returned content) JSON_parse
        = Returned (map JString lines)
        /\ lines = filter non_empty (map trim (split "010" content))
        /\ Forall clean_token lines).
Proof.
  unfold loadTokensFromFile. split; [| split].
  - destruct (JSON_parse content); eexists; reflexivity.
  - intros tokens [-> | ->]; reflexivity.
  - intros Hparse. eexists. split; [| split; [reflexivity |]].
    + destruct Hparse as [-> | [-> | ->]]; reflexivity.
    + apply loadTokens_lines.
Qed.

Lemma loadTokens_from_content_witness :
  loadTokensFromFile "tokens.txt" (Returned " tok-1
tok-2  

") (fun _ => JsonOther)
  = Returned [JString "tok-1"; JString "tok-2"].
Proof.
  destruct (loadTokens_from_content "tokens.txt" " tok-1
tok-2  

" (fun _ => JsonOther)) as (_ & _ & Hlines).
  destruct Hlines as (lines & -> & -> & _).
  - right. right. reflexivity.
  - reflexivity.
Defined.

(** ** The token checks of the tools *)

(** X22.  The token checks are nested.  A token that
    [validateTokenFormat] accepts is accepted by [validateFCMToken]; a
    token that [validateFCMToken] accepts is a string on which the
    handler's [validateInput] and the sender's [validateNotification]
    raise no token error, and which the sender can always show: whether
    such a request or notification is accepted depends on its other
    properties only. *)
Theorem token_checks_nested token :
  (valid (validateTokenFormat token) = true -> validateFCMToken token = true)
  /\ (validateFCMToken token = true ->
      is_string token
      /\ (forall body,
             body_fcmToken body = token ->
             (validateInput body = []
              <-> truthy (body_title body) = true
                  /\ length_gt (body_title body) 100 = false
                  /\ truthy (body_message body) = true
                  /\ length_gt (body_message body) 500 = false))
      /\ (forall notification,
             fcmToken notification = token ->
             ~ In "Missing fcmToken" (validateNotification notification))).
Proof.
  split.
  - intros Hvalid. apply validateTokenFormat_spec in Hvalid. apply Hvalid.
  - intros Hok.
    destruct (proj1 (validateFCMToken_spec token) Hok)
      as (s & -> & Hne & Hlen & _).
    split; [exists s; reflexivity | split].
    + intros body Hbody. rewrite validateInput_none, Hbody. split.
      * intros (_ & H). exact H.
      * intros H. split; [| exact H]. exists s. split; [reflexivity | lia].
    + intros notification Hn. unfold validateNotification. rewrite Hn.
      assert (Htruthy : truthy (JString s) = true).
      { cbn. apply negb_true_iff, Nat.eqb_neq. lia. }
      rewrite Htruthy. cbn [negb app].
      destruct (negb (truthy (title notification))
                && negb (truthy (data notification)));
        destruct (truthy (title notification)
                  && length_gt (title notification) 100);
        destruct (truthy (message_body notification)
                  && length_gt (message_body notification) 500);
        cbn; intuition discriminate.
Qed.

Lemma token_checks_nested_witness :
  is_string (JString (long_token "a" 140)).
Proof.
  apply (token_checks_nested (JString (long_token "a" 140))).
  vm_compute. reflexivity.
Defined.

(** ** Errors and edges of the batch sender's driver *)

(** X23.  Every error of the loader names the file.  When
    [loadNotificationsFromFile] throws, the message starts with [Failed
    to load notifications from], the path and a colon.  A failed read
    passes its message on; a JSON value that is neither an array nor an
    object with a [notifications] array gives [File must contain an array
    of notifications]; a JSON array is returned as it is. *)
Theorem load_errors_name_the_file filePath read JSON_parse :
  (forall message,
      loadNotificationsFromFile filePath read JSON_parse = Thrown message ->
      exists detail,
        message
        = ("Failed to load notifications from " ++ filePath ++ ": "
           ++ detail)%string)
  /\ (forall detail,
         read = Thrown detail ->
         loadNotificationsFromFile filePath read JSON_parse
         = Thrown ("Failed to load notifications from " ++ filePath ++ ": "
                   ++ detail)%string)
  /\ (forall content,
         read = Returned content -> JSON_parse content = JsonOther ->
         loadNotificationsFromFile filePath read JSON_parse
         = Thrown ("Failed to load notifications from " ++ filePath
                   ++ ": File must contain an array of notifications")%string)
  /\ (forall content notifications,
         read = Returned content ->
         JSON_parse content = JsonArray notifications
         \/ JSON_parse content = JsonWithArray notifications ->
         loadNotificationsFromFile filePath read JSON_parse
         = Returned notifications).
Proof.
  unfold loadNotificationsFromFile. split; [| split; [| split]].
  - intros message. destruct read as [content | detail].
    + destruct (JSON_parse content); try discriminate;
        try (destruct (parse_csv content); [discriminate |]);
        intros H; injection H as <-; eexists; reflexivity.
    + intros H. injection H as <-. eexists. reflexivity.
  - intros detail ->. reflexivity.
  - intros content -> ->. reflexivity.
  - intros content notifications -> [-> | ->]; reflexivity.
Qed.

Lemma load_errors_name_the_file_witness :
  loadNotificationsFromFile "n.json" (Thrown "ENOENT: no such file")
    (fun _ => JsonOther)
  = Thrown "Failed to load notifications from n.json: ENOENT: no such file".
Proof.
  apply (load_errors_name_the_file "n.json" (Thrown "ENOENT: no such file")
           (fun _ => JsonOther)).
  reflexivity.
Defined.

(** X24.  A negative batch size hangs the driver.  For a non-empty list
    of notifications that pass validation and have string tokens, [main]
    with a negative [--batch-size] never exits: no amount of fuel yields
    an exit code. *)
Theorem main_hangs_on_negative_batch_size fuel args env filePath arn read
    JSON_parse oracle settles write notifications :
  sends_file args env filePath arn ->
  loadNotificationsFromFile (path_text filePath) read JSON_parse
  = Returned notifications ->
  notifications <> [] ->
  Forall (fun n => validateNotification n = []) notifications ->
  Forall (fun n => is_string (fcmToken n)) notifications ->
  batchSize (constructor env (main_options arn args)) < 0 ->
  main fuel args env read JSON_parse oracle settles write = None.
Proof.
  intros Hargs Hload Hne Hvalid Hstrings Hneg.
  rewrite (main_sends_file _ _ _ _ _ _ _ _ _ _ Hargs).
  unfold main_try. rewrite Hload.
  apply (validation_errors_none 0) in Hvalid. rewrite Hvalid.
  cbn [List.length Nat.ltb Nat.leb].
  rewrite sendBatch_negative_diverges by assumption. reflexivity.
Qed.

Lemma main_hangs_on_negative_batch_size_witness :
  main 100 (send_file_in_batches "n.json" (-1)) None (Returned "")
    (fun _ => JsonArray [titled (JString sample_token)])
    (fun _ => accepted) in_order None
  = None.
Proof.
  apply (main_hangs_on_negative_batch_size 100
           (send_file_in_batches "n.json" (-1)) None (Some "n.json") sample_arn
           (Returned "")
           (fun _ => JsonArray [titled (JString sample_token)])
           (fun _ => accepted) in_order None [titled (JString sample_token)]).
  - repeat split. discriminate.
  - reflexivity.
  - discriminate.
  - repeat constructor.
  - repeat constructor. eexists. reflexivity.
  - reflexivity.
Defined.

(** X25.  Zero is not a setting.  A numeric option of [0] is replaced by
    its default like a missing one, so no sender has a batch size, delay,
    retry count or retry delay of zero.  In particular retries cannot be
    switched off with [maxRetries: 0]: a send whose every attempt is
    rejected then still calls the provider four times. *)
Theorem zero_options_are_defaults env options :
  batchSize (constructor env options) <> 0
  /\ delayBetweenBatches (constructor env options) <> 0
  /\ maxRetries (constructor env options) <> 0
  /\ retryDelay (constructor env options) <> 0
  /\ (opt_maxRetries options = Some 0 ->
      forall publish notification,
        (forall k, is_rejected (publish k)) ->
        provider_calls
          (trace (sendSingleNotification (constructor env options) publish
                    notification 0)) = 4%nat).
Proof.
  assert (Hnz : forall x d, d <> 0 -> number_or x d <> 0).
  { intros [v |] d Hd; cbn; [| exact Hd].
    destruct (Z.eqb_spec v 0); assumption. }
  repeat split; try (apply Hnz; lia).
  intros Hzero publish notification Hfail.
  destruct (send_all_rejected (constructor env options) publish notification 0)
    as (Htrace & _); [intros k _; apply Hfail |].
  rewrite Htrace, provider_calls_attempts. cbn [constructor maxRetries].
  rewrite Hzero. reflexivity.
Qed.

Lemma zero_options_are_defaults_witness :
  provider_calls
    (trace (sendSingleNotification (constructor None (with_maxRetries 0))
              throttled (titled (JString sample_token)) 0)) = 4%nat.
Proof.
  apply (zero_options_are_defaults None (with_maxRetries 0)).
  - reflexivity.
  - intros k. eexists. reflexivity.
Defined.

(** X26.  What the handler accepts, the batch sender accepts.  A request
    body that passes [validateInput] gives, with the same token, title
    and message and whatever data, a notification that passes
    [validateNotification] and whose token the sender can show. *)
Theorem handler_input_is_valid_notification body some_data some_batchId :
  validateInput body = [] ->
  validateNotification
    {| fcmToken := body_fcmToken body;
       title := body_title body;
       message_body := body_message body;
       data := some_data;
       batchId := some_batchId |} = []
  /\ is_string (body_fcmToken body).
Proof.
  intros Hvalid. apply validateInput_none in Hvalid.
  destruct Hvalid as ((t & Ht & Hlen) & Htitle & Htl & Hmsg & Hml).
  split; [| exists t; exact Ht].
  unfold validateNotification. cbn [fcmToken title message_body data].
  rewrite Ht, Htitle, Htl, Hmsg, Hml.
  assert (Htruthy : truthy (JString t) = true).
  { cbn. apply negb_true_iff, Nat.eqb_neq. lia. }
  rewrite Htruthy. reflexivity.
Qed.

Lemma handler_input_is_valid_notification_witness :
  validateNotification
    {| fcmToken := JString sample_token;
       title := JString "Hi";
       message_body := JString "Hello";
       data := JUndefined;
       batchId := JUndefined |} = [].
Proof.
  apply (handler_input_is_valid_notification sample_body JUndefined JUndefined).
  reflexivity.
Defined.
